(** * The updater's install builtins (updater/install.c)

    A shallow embedding of the ten edify builtins registered by
    [RegisterInstallFunctions]: each C function becomes a computation in
    a small state-and-outcome monad over the allocator, the release
    log, the error slot and the log of driver calls. *)

From Stdlib Require Import ZArith List String Ascii Bool Lia.
Import ListNotations.
Local Open Scope string_scope.
Local Open Scope Z_scope.

(** ** Text: what libc's printf and strtoul families do *)

(** The double quote and the newline, for format strings. *)
Definition dq : string := String (ascii_of_nat 34) EmptyString.
Definition nl : string := String (ascii_of_nat 10) EmptyString.

Definition digit_char (d : Z) : ascii := ascii_of_nat (48 + Z.to_nat d).

(** Decimal digits of a non-negative number, most significant first,
    pushed in front of [acc]. *)
Fixpoint utoa_rec (fuel : nat) (n : Z) (acc : string) : string :=
  match fuel with
  | O => acc
  | S fuel' =>
      let acc' := String (digit_char (n mod 10)) acc in
      if n <? 10 then acc' else utoa_rec fuel' (n / 10) acc'
  end.

(** A number has no more decimal digits than binary ones. *)
Definition utoa (n : Z) : string :=
  utoa_rec (S (Z.to_nat (Z.log2 n))) n EmptyString.

(** printf's [%d]. *)
Definition itoa (z : Z) : string :=
  if z <? 0 then String "-"%char (utoa (- z)) else utoa z.

(** The value a string of decimal digits denotes, if it is one. *)
Fixpoint decimal_value (s : string) (acc : Z) : option Z :=
  match s with
  | EmptyString => Some acc
  | String c r =>
      let n := Z.of_nat (nat_of_ascii c) in
      if (48 <=? n) && (n <=? 57) then decimal_value r (acc * 10 + (n - 48))
      else None
  end.

(** An argument handed to a printf-style function after the format. *)
Inductive fmt_arg : Type :=
| arg_s (s : string)
| arg_d (d : Z)
| arg_f (shown : string).

Definition render (conv : ascii) (a : fmt_arg) : option string :=
  match a with
  | arg_s s => if Ascii.eqb conv "s" then Some s else None
  | arg_d d => if Ascii.eqb conv "d" then Some (itoa d) else None
  | arg_f t => if Ascii.eqb conv "f" then Some t else None
  end.

(** The text a format produces from its arguments. A conversion with no
    argument left, or with one of another type, is undefined in C:
    [None]. *)
Fixpoint format (fmt : string) (args : list fmt_arg) : option string :=
  match fmt with
  | EmptyString => Some EmptyString
  | String c EmptyString => Some (String c EmptyString)
  | String c (String conv rest as tail) =>
      if Ascii.eqb c "%" then
        match args with
        | a :: args' =>
            match render conv a with
            | Some s => option_map (append s) (format rest args')
            | None => None
            end
        | [] => None
        end
      else option_map (String c) (format tail args)
  end.

(** vsnprintf(buffer, size, ...): the text cut to [size - 1] characters. *)
Definition truncate (size : nat) (s : string) : string :=
  substring 0 (size - 1) s.

Definition vsnprintf (size : nat) (fmt : string) (args : list fmt_arg)
  : option string :=
  option_map (truncate size) (format fmt args).

Definition isspace (c : ascii) : bool :=
  let n := Z.of_nat (nat_of_ascii c) in
  (n =? 32) || ((9 <=? n) && (n <=? 13)).

Definition digit_value (c : ascii) : option Z :=
  let n := Z.of_nat (nat_of_ascii c) in
  if (48 <=? n) && (n <=? 57) then Some (n - 48)
  else if (97 <=? n) && (n <=? 122) then Some (n - 87)
  else if (65 <=? n) && (n <=? 90) then Some (n - 55)
  else None.

Fixpoint skip_space (s : string) : string :=
  match s with
  | String c r => if isspace c then skip_space r else s
  | EmptyString => EmptyString
  end.

(** The digits of [base] at the front of [s]: their value on top of
    [acc], and what follows them. *)
Fixpoint scan_digits (base : Z) (s : string) (acc : Z) : Z * string :=
  match s with
  | String c r =>
      match digit_value c with
      | Some d => if d <? base then scan_digits base r (acc * base + d)
                  else (acc, s)
      | None => (acc, s)
      end
  | EmptyString => (acc, EmptyString)
  end.

Record scanned : Type := mk_scanned {
  negative : bool;
  magnitude : Z;
  rest : string   (* what the end pointer points at *)
}.

Definition is_hex_digit (c : ascii) : bool :=
  match digit_value c with Some d => d <? 16 | None => false end.

(** The subject sequence of strtol/strtoul: white space, a sign, for
    base 0 or 16 an 0x prefix before a hex digit, then digits. Without
    a digit nothing is converted and the end pointer is [nptr]. *)
Definition scan_number (base0 : Z) (nptr : string) : scanned :=
  let s := skip_space nptr in
  let '(neg, s1) :=
    match s with
    | String c r =>
        if Ascii.eqb c "-" then (true, r)
        else if Ascii.eqb c "+" then (false, r) else (false, s)
    | EmptyString => (false, s)
    end in
  let hex_prefix :=
    match s1 with
    | String z (String x (String h _)) =>
        Ascii.eqb z "0" && (Ascii.eqb x "x" || Ascii.eqb x "X")
        && is_hex_digit h
    | _ => false
    end in
  let '(base, s2) :=
    if ((base0 =? 0) || (base0 =? 16)) && hex_prefix
    then (16, substring 2 (String.length s1 - 2) s1)
    else if base0 =? 0
    then (match s1 with
          | String z _ => if Ascii.eqb z "0" then 8 else 10
          | EmptyString => 10
          end, s1)
    else (base0, s1) in
  let '(v, r) := scan_digits base s2 0 in
  if (String.length r =? String.length s2)%nat
  then mk_scanned false 0 nptr
  else mk_scanned neg v r.

(** Conversion of an integer to C's 32-bit [int]. *)
Definition to_int (z : Z) : Z := (z + 2 ^ 31) mod 2 ^ 32 - 2 ^ 31.

Definition INT_MAX : Z := 2 ^ 31 - 1.

(** ** Values, driver calls and the platform *)

(** A [char*] that is not NULL: the address of the block and the text
    in it. The builtins never write into a string they hold, so the
    text travels with the address. *)
Record cstr : Type := mk_cstr { addr : nat; text : string }.

(** A [char*]; NULL is [None]. *)
Definition char_p : Type := option cstr.

(** Pointer comparison, as in [result != mount_point]. *)
Definition ptr_eqb (p q : char_p) : bool :=
  match p, q with
  | None, None => true
  | Some a, Some b => Nat.eqb (addr a) (addr b)
  | _, _ => false
  end.

(** A [char**] from malloc: the address of the array and its cells. *)
Record array : Type := mk_array { base : nat; cells : list cstr }.

(** Modelled from the spec: an argument node (edify/expr.h is not among
    the sources). A builtin sees of a node only what evaluating it
    gives: a text value, or failure. *)
Inductive Expr : Type :=
| yields (s : string)
| fails.

(** The [UpdaterInfo] behind the cookie. *)
Record UpdaterInfo : Type := mk_UpdaterInfo {
  cmd_pipe : Z;
  package_zip : Z
}.

(** The calls into the storage drivers, the archive service and the
    kernel, each with the arguments the builtin passes. *)
Inductive Call : Type :=
| c_mkdir (path : string) (mode : Z)
| c_mtd_scan_partitions
| c_mtd_find_partition_by_name (name : string)
| c_mtd_mount_partition (mtd : Z) (mount_point fs : string) (read_only : Z)
| c_mount (source target fstype : string) (flags : Z) (data : string)
| c_scan_mounted_volumes
| c_find_mounted_volume_by_mount_point (mount_point : string)
| c_unmount_mounted_volume (vol : Z)
| c_mtd_write_partition (mtd : Z)
| c_mtd_erase_blocks (ctx : Z) (blocks : Z)
| c_mtd_write_close (ctx : Z)
| c_dirUnlinkHierarchy (path : string)
| c_unlink (path : string)
| c_fprintf (stream : Z) (line : string)
| c_mzExtractRecursive (za : Z) (zip_path dest_path : string) (flags : Z)
    (actime modtime : Z)
| c_symlink (target linkpath : string)
| c_dirSetHierarchyPermissions (path : string) (uid gid dir_mode file_mode : Z)
| c_chown (path : string) (uid gid : Z)
| c_chmod (path : string) (mode : Z).

(** What the builtins take from outside install.c: the drivers as one
    oracle over the world (a call returns an int, a pointer as 0 for
    NULL, a bool as 0 for false), the text of [strerror(errno)], how
    [%f] shows [strtod] of a text, and the constants of the headers. *)
Class Platform : Type := {
  World : Type;
  exec : Call -> World -> Z * World;
  strerror_errno : World -> string;
  show_double : string -> string;
  ULONG_MAX : Z;
  MS_NOATIME : Z;
  MS_NODEV : Z;
  MS_NODIRATIME : Z;
  MZ_EXTRACT_FILES_ONLY : Z
}.

Section Updater.
Context {P : Platform}.

(** ** State and the monad of outcomes *)

Record State : Type := mk_State {
  world : World;
  brk : nat;                  (* the address malloc hands out next *)
  freed : list nat;           (* addresses given to free, latest first *)
  errors : list cstr;         (* buffers given to SetError, latest first *)
  stderr : list string;       (* lines printed to stderr, latest first *)
  calls : list (Call * Z)     (* driver calls and results, latest first *)
}.

Inductive Outcome (A : Type) : Type :=
| Returns (a : A) (s : State)
| Undefined (why : string) (s : State)
| OutOfFuel (s : State).
Arguments Returns {A} a s.
Arguments Undefined {A} why s.
Arguments OutOfFuel {A} s.

Definition M (A : Type) : Type := State -> Outcome A.

Definition ret {A : Type} (a : A) : M A := fun s => Returns a s.

Definition bind {A B : Type} (m : M A) (k : A -> M B) : M B :=
  fun s =>
    match m s with
    | Returns a s' => k a s'
    | Undefined why s' => Undefined why s'
    | OutOfFuel s' => OutOfFuel s'
    end.

Notation "x <- m ;; k" := (bind m (fun x => k))
  (at level 61, m at next level, right associativity).
Notation "m ;; k" := (bind m (fun _ => k))
  (at level 61, right associativity).

Definition undefined {A : Type} (why : string) : M A :=
  fun s => Undefined why s.

Definition out_of_fuel {A : Type} : M A := fun s => OutOfFuel s.

(** malloc: a fresh address. *)
Definition malloc : M nat :=
  fun s => Returns (brk s)
    (mk_State (world s) (S (brk s)) (freed s) (errors s) (stderr s) (calls s)).

Definition free_addr (a : nat) : M unit :=
  fun s => Returns tt
    (mk_State (world s) (brk s) (a :: freed s) (errors s) (stderr s) (calls s)).

Definition free (p : cstr) : M unit := free_addr (addr p).

Definition strdup (s : string) : M cstr :=
  a <- malloc ;; ret (mk_cstr a s).

(** Modelled from the spec: SetError of edify/expr.h (4.2). The buffer
    becomes the pending error; the list keeps what it overwrote behind
    it, so the slot is the head and each call leaves one entry. *)
Definition SetError (buffer : cstr) : M unit :=
  fun s => Returns tt
    (mk_State (world s) (brk s) (freed s) (buffer :: errors s) (stderr s)
       (calls s)).

Definition call (c : Call) : M Z :=
  fun s =>
    let r := exec c (world s) in
    Returns (fst r)
      (mk_State (snd r) (brk s) (freed s) (errors s) (stderr s)
         ((c, fst r) :: calls s)).

(** fprintf(stderr, ...). *)
Definition eprintf (fmt : string) (args : list fmt_arg) : M unit :=
  match format fmt args with
  | Some line =>
      fun s => Returns tt
        (mk_State (world s) (brk s) (freed s) (errors s) (line :: stderr s)
           (calls s))
  | None => undefined "printf: argument missing"
  end.

Definition get_strerror : M string := fun s => Returns (strerror_errno (world s)) s.

Definition strlen (p : cstr) : Z := Z.of_nat (String.length (text p)).

(** ** The evaluator's adapter *)

(** Modelled from the spec: Evaluate of edify/expr.h. A value is an
    owned, freshly allocated text; failure is NULL. *)
Definition Evaluate (e : Expr) : M char_p :=
  match e with
  | yields s => v <- strdup s ;; ret (Some v)
  | fails => ret None
  end.

Fixpoint free_all (ps : list cstr) : M unit :=
  match ps with
  | [] => ret tt
  | p :: ps' => free p ;; free_all ps'
  end.

(** Modelled from the spec: the loop shared by [ReadArgs] and
    [ReadVarArgs] (4.1): nodes are evaluated left to right; on the
    first failure every value evaluated before is released and the
    failure is reported. *)
Fixpoint eval_nodes (nodes : list Expr) (got : list cstr)
  : M (option (list cstr)) :=
  match nodes with
  | [] => ret (Some got)
  | e :: nodes' =>
      v <- Evaluate e ;;
      match v with
      | None => free_all got ;; ret None
      | Some s => eval_nodes nodes' (got ++ [s])
      end
  end.

(** Modelled from the spec: [ReadArgs] of edify/expr.h,
    evaluate_fixed. [None] stands for the negative return. *)
Definition ReadArgs (argv : list Expr) (count : nat)
  : M (option (list cstr)) :=
  eval_nodes (firstn count argv) [].

(** Modelled from the spec: [ReadVarArgs] of edify/expr.h,
    evaluate_variadic. The array is what the caller frees last. *)
Definition ReadVarArgs (argc : Z) (argv : list Expr) : M (option array) :=
  a <- malloc ;;
  r <- eval_nodes (firstn (Z.to_nat argc) argv) [] ;;
  match r with
  | None => free_addr a ;; ret None
  | Some vs => ret (Some (mk_array a vs))
  end.

(** ** install.c *)

Definition ErrorAbort (fmt : string) (args : list fmt_arg) : M char_p :=
  a <- malloc ;;
  match vsnprintf 4096 fmt args with
  | Some msg => SetError (mk_cstr a msg) ;; ret None
  | None => undefined "printf: argument missing"
  end.

Definition argc_of (argv : list Expr) : Z := Z.of_nat (List.length argv).

Definition MountFn (name : string) (cookie : UpdaterInfo) (argv : list Expr)
  : M char_p :=
  let argc := argc_of argv in
  if negb (argc =? 3) then
    ErrorAbort "%s() expects 3 args, got %d" [arg_s name; arg_d argc]
  else
    r <- ReadArgs argv 3 ;;
    match r with
    | None => ret None
    | Some [type; location; mount_point] =>
        let done (result : char_p) : M char_p :=
          free type ;;
          free location ;;
          (if negb (ptr_eqb result (Some mount_point))
           then free mount_point else ret tt) ;;
          ret result in
        if strlen type =? 0 then
          ErrorAbort "type argument to %s() can't be empty" [arg_s name] ;;
          done None
        else if strlen location =? 0 then
          ErrorAbort "location argument to %s() can't be empty" [arg_s name] ;;
          done None
        else if strlen mount_point =? 0 then
          ErrorAbort "mount_point argument to %s() can't be empty"
            [arg_s name] ;;
          done None
        else
          call (c_mkdir (text mount_point) 493) ;;
          if String.eqb (text type) "MTD" then
            call c_mtd_scan_partitions ;;
            mtd <- call (c_mtd_find_partition_by_name (text location)) ;;
            if mtd =? 0 then
              eprintf ("%s: no mtd partition named " ++ dq ++ "%s" ++ dq)
                [arg_s name; arg_s (text location)] ;;
              e <- strdup "" ;;
              done (Some e)
            else
              rc <- call (c_mtd_mount_partition mtd (text mount_point)
                            "yaffs2" 0) ;;
              if negb (rc =? 0) then
                why <- get_strerror ;;
                eprintf ("mtd mount of %s failed: %s" ++ nl)
                  [arg_s (text location); arg_s why] ;;
                e <- strdup "" ;;
                done (Some e)
              else done (Some mount_point)
          else
            rc <- call (c_mount (text location) (text mount_point) (text type)
                          (Z.lor (Z.lor MS_NOATIME MS_NODEV) MS_NODIRATIME)
                          "") ;;
            if rc <? 0 then
              e <- strdup "" ;;
              done (Some e)
            else done (Some mount_point)
    | Some _ => undefined "ReadArgs: not 3 values"
    end.

Definition UnmountFn (name : string) (cookie : UpdaterInfo)
  (argv : list Expr) : M char_p :=
  let argc := argc_of argv in
  if negb (argc =? 1) then
    ErrorAbort "%s() expects 1 arg, got %d" [arg_s name; arg_d argc]
  else
    r <- ReadArgs argv 1 ;;
    match r with
    | None => ret None
    | Some [mount_point] =>
        let done (result : char_p) : M char_p :=
          (if negb (ptr_eqb result (Some mount_point))
           then free mount_point else ret tt) ;;
          ret result in
        if strlen mount_point =? 0 then
          ErrorAbort "mount_point argument to unmount() can't be empty" [] ;;
          done None
        else
          call c_scan_mounted_volumes ;;
          vol <- call (c_find_mounted_volume_by_mount_point
                         (text mount_point)) ;;
          if vol =? 0 then
            eprintf ("unmount of %s failed; no such volume" ++ nl)
              [arg_s (text mount_point)] ;;
            e <- strdup "" ;;
            done (Some e)
          else
            call (c_unmount_mounted_volume vol) ;;
            done (Some mount_point)
    | Some _ => undefined "ReadArgs: not 1 value"
    end.

Definition FormatFn (name : string) (cookie : UpdaterInfo) (argv : list Expr)
  : M char_p :=
  let argc := argc_of argv in
  if negb (argc =? 2) then
    ErrorAbort "%s() expects 2 args, got %d" [arg_s name; arg_d argc]
  else
    r <- ReadArgs argv 2 ;;
    match r with
    | None => ret None
    | Some [type; location] =>
        let done (result : char_p) : M char_p :=
          free type ;;
          (if negb (ptr_eqb result (Some location))
           then free location else ret tt) ;;
          ret result in
        let soft (fmt : string) : M char_p :=
          eprintf fmt [arg_s name; arg_s (text location)] ;;
          e <- strdup "" ;;
          done (Some e) in
        if strlen type =? 0 then
          ErrorAbort "type argument to %s() can't be empty" [arg_s name] ;;
          done None
        else if strlen location =? 0 then
          ErrorAbort "location argument to %s() can't be empty" [arg_s name] ;;
          done None
        else if String.eqb (text type) "MTD" then
          call c_mtd_scan_partitions ;;
          mtd <- call (c_mtd_find_partition_by_name (text location)) ;;
          if mtd =? 0 then
            soft ("%s: no mtd partition named " ++ dq ++ "%s" ++ dq)
          else
            ctx <- call (c_mtd_write_partition mtd) ;;
            if ctx =? 0 then
              soft ("%s: can't write " ++ dq ++ "%s" ++ dq)
            else
              erased <- call (c_mtd_erase_blocks ctx (-1)) ;;
              if erased =? -1 then
                call (c_mtd_write_close ctx) ;;
                soft ("%s: failed to erase " ++ dq ++ "%s" ++ dq)
              else
                closed <- call (c_mtd_write_close ctx) ;;
                if negb (closed =? 0) then
                  soft ("%s: failed to close " ++ dq ++ "%s" ++ dq)
                else done (Some location)
        else
          eprintf ("%s: unsupported type " ++ dq ++ "%s" ++ dq)
            [arg_s name; arg_s (text type)] ;;
          done None
    | Some _ => undefined "ReadArgs: not 2 values"
    end.

(** The release loop of [DeleteFn], line 202:
    [for (j = 0; j < i; ++i) free(paths[j]);]
    It is the one loop of the file whose bound is not the argument
    count, so its iterations are counted down from [fuel]. *)
Fixpoint delete_release (fuel : nat) (paths : list cstr) (i j : Z) : M unit :=
  if j <? i then
    match fuel with
    | O => out_of_fuel
    | S fuel' =>
        match nth_error paths (Z.to_nat j) with
        | Some p => free p
        | None => undefined "paths[j]: not an evaluated cell"
        end ;;
        if i =? INT_MAX then undefined "++i: signed overflow"
        else delete_release fuel' paths (i + 1) j
    end
  else ret tt.

(** The first loop of [DeleteFn]; [paths] holds the cells filled so
    far, so [i] is their number. *)
Fixpoint delete_evaluate (fuel : nat) (paths_at : nat) (argv : list Expr)
  (paths : list cstr) : M (option (list cstr)) :=
  match argv with
  | [] => ret (Some paths)
  | e :: argv' =>
      v <- Evaluate e ;;
      match v with
      | None =>
          delete_release fuel paths (Z.of_nat (List.length paths)) 0 ;;
          free_addr paths_at ;;
          ret None
      | Some p => delete_evaluate fuel paths_at argv' (paths ++ [p])
      end
  end.

(** The second loop of [DeleteFn]. *)
Fixpoint delete_paths (recursive : bool) (paths : list cstr) (success : Z)
  : M Z :=
  match paths with
  | [] => ret success
  | p :: paths' =>
      rc <- call (if recursive then c_dirUnlinkHierarchy (text p)
                  else c_unlink (text p)) ;;
      free p ;;
      delete_paths recursive paths' (if rc =? 0 then success + 1 else success)
  end.

(** sprintf(buffer, "%d", d) into [char buffer[size]]: the digits and
    the final NUL have to fit. *)
Definition sprintf_d (size : nat) (d : Z) : M string :=
  if (String.length (itoa d) <? size)%nat then ret (itoa d)
  else undefined "sprintf: buffer overflow".

(** [fuel] reaches the release loop only: a call whose arguments all
    evaluate runs the same for every [fuel]. *)
Definition DeleteFn (fuel : nat) (name : string) (cookie : UpdaterInfo)
  (argv : list Expr) : M char_p :=
  paths_at <- malloc ;;
  r <- delete_evaluate fuel paths_at argv [] ;;
  match r with
  | None => ret None
  | Some paths =>
      let recursive := String.eqb name "delete_recursive" in
      success <- delete_paths recursive paths 0 ;;
      free_addr paths_at ;;
      buffer <- sprintf_d 10 success ;;
      e <- strdup buffer ;;
      ret (Some e)
  end.

(** strtol: the value saturates at the ends of [long]. *)
Definition strtol (nptr : string) (base : Z) : Z :=
  let n := scan_number base nptr in
  let v := if negative n then - magnitude n else magnitude n in
  Z.max (- (ULONG_MAX / 2) - 1) (Z.min (ULONG_MAX / 2) v).

(** strtoul: the value and the end pointer; a value past [ULONG_MAX]
    saturates, a minus sign negates in [unsigned long]. *)
Definition strtoul (nptr : string) (base : Z) : Z * string :=
  let n := scan_number base nptr in
  (if ULONG_MAX <? magnitude n then ULONG_MAX
   else if negative n then (- magnitude n) mod (ULONG_MAX + 1)
   else magnitude n,
   rest n).

Definition ShowProgressFn (name : string) (cookie : UpdaterInfo)
  (argv : list Expr) : M char_p :=
  let argc := argc_of argv in
  if negb (argc =? 2) then
    ErrorAbort "%s() expects 2 args, got %d" [arg_s name; arg_d argc]
  else
    r <- ReadArgs argv 2 ;;
    match r with
    | None => ret None
    | Some [frac_str; sec_str] =>
        let frac := show_double (text frac_str) in
        let sec := to_int (strtol (text sec_str) 10) in
        match format ("progress %f %d" ++ nl) [arg_f frac; arg_d sec] with
        | Some line => call (c_fprintf (cmd_pipe cookie) line)
        | None => undefined "printf: argument missing"
        end ;;
        free frac_str ;;
        free sec_str ;;
        e <- strdup "" ;;
        ret (Some e)
    | Some _ => undefined "ReadArgs: not 2 values"
    end.

Definition PackageExtractFn (name : string) (cookie : UpdaterInfo)
  (argv : list Expr) : M char_p :=
  let argc := argc_of argv in
  if negb (argc =? 2) then
    ErrorAbort "%s() expects 2 args, got %d" [arg_s name; arg_d argc]
  else
    r <- ReadArgs argv 2 ;;
    match r with
    | None => ret None
    | Some [zip_path; dest_path] =>
        let za := package_zip cookie in
        let timestamp := (1217592000, 1217592000) in
        success <- call (c_mzExtractRecursive za (text zip_path)
                           (text dest_path) MZ_EXTRACT_FILES_ONLY
                           (fst timestamp) (snd timestamp)) ;;
        free zip_path ;;
        free dest_path ;;
        e <- strdup (if negb (success =? 0) then "t" else "") ;;
        ret (Some e)
    | Some _ => undefined "ReadArgs: not 2 values"
    end.

(** The loop of [SymlinkFn]. *)
Fixpoint symlink_each (target : cstr) (srcs : list cstr) : M unit :=
  match srcs with
  | [] => ret tt
  | src :: srcs' =>
      call (c_symlink (text target) (text src)) ;;
      free src ;;
      symlink_each target srcs'
  end.

Definition SymlinkFn (name : string) (cookie : UpdaterInfo)
  (argv : list Expr) : M char_p :=
  let argc := argc_of argv in
  match argv with
  | [] => ErrorAbort "%s() expects 1+ args, got %d" [arg_s name; arg_d argc]
  | argv0 :: argv1 =>
      t <- Evaluate argv0 ;;
      match t with
      | None => ret None
      | Some target =>
          r <- ReadVarArgs (argc - 1) argv1 ;;
          match r with
          | None => free target ;; ret None
          | Some srcs =>
              symlink_each target (cells srcs) ;;
              free_addr (base srcs) ;;
              e <- strdup "" ;;
              ret (Some e)
          end
      end
  end.

(** [args[k]]. *)
Definition cell (args : array) (k : nat) : M cstr :=
  match nth_error (cells args) k with
  | Some p => ret p
  | None => undefined "args[k]: outside the array"
  end.

(** [*p == '\0']. *)
Definition at_nul (s : string) : bool :=
  match s with EmptyString => true | String _ _ => false end.

(** The test [SetPermFn] makes after each strtoul(arg, &end, 0):
    [*end != '\0' || arg[0] == 0]. *)
Definition not_a_number (arg : string) : bool :=
  negb (at_nul (snd (strtoul arg 0))) || at_nul arg.

(** The loop of line 333. *)
Fixpoint set_hierarchy_each (targets : list cstr)
  (uid gid dir_mode file_mode : Z) : M unit :=
  match targets with
  | [] => ret tt
  | p :: targets' =>
      call (c_dirSetHierarchyPermissions (text p) uid gid dir_mode
              file_mode) ;;
      set_hierarchy_each targets' uid gid dir_mode file_mode
  end.

(** The loop of line 343. *)
Fixpoint chown_chmod_each (targets : list cstr) (uid gid mode : Z) : M unit :=
  match targets with
  | [] => ret tt
  | p :: targets' =>
      call (c_chown (text p) uid gid) ;;
      call (c_chmod (text p) mode) ;;
      chown_chmod_each targets' uid gid mode
  end.

Definition SetPermFn (name : string) (cookie : UpdaterInfo)
  (argv : list Expr) : M char_p :=
  let argc := argc_of argv in
  let recursive := String.eqb name "set_perm_recursive" in
  let min_args := 4 + (if recursive then 1 else 0) in
  if argc <? min_args then
    ErrorAbort "%s() expects %d+ args, got %d" [arg_s name; arg_d argc]
  else
    r <- ReadVarArgs argc argv ;;
    match r with
    | None => ret None
    | Some args =>
        let done (result : char_p) : M char_p :=
          free_all (cells args) ;;
          free_addr (base args) ;;
          ret result in
        let invalid (what : string) (arg : cstr) : M char_p :=
          ErrorAbort ("%s: " ++ dq ++ "%s" ++ dq ++ " not a valid " ++ what)
            [arg_s name; arg_s (text arg)] ;;
          done None in
        a0 <- cell args 0 ;;
        let uid := to_int (fst (strtoul (text a0) 0)) in
        if not_a_number (text a0) then invalid "uid" a0
        else
          a1 <- cell args 1 ;;
          let gid := to_int (fst (strtoul (text a1) 0)) in
          if not_a_number (text a1) then invalid "gid" a1
          else if recursive then
            a2 <- cell args 2 ;;
            let dir_mode := to_int (fst (strtoul (text a2) 0)) in
            if not_a_number (text a2) then invalid "dirmode" a2
            else
              a3 <- cell args 3 ;;
              let file_mode := to_int (fst (strtoul (text a3) 0)) in
              if not_a_number (text a3) then invalid "filemode" a3
              else
                set_hierarchy_each (skipn 4 (cells args)) uid gid dir_mode
                  file_mode ;;
                e <- strdup "" ;;
                done (Some e)
          else
            a2 <- cell args 2 ;;
            let mode := to_int (fst (strtoul (text a2) 0)) in
            if not_a_number (text a2) then invalid "mode" a2
            else
              chown_chmod_each (skipn 4 (cells args)) uid gid mode ;;
              e <- strdup "" ;;
              done (Some e)
    end.

(** A builtin as the evaluator calls it. *)
Definition Function_ : Type :=
  string -> UpdaterInfo -> list Expr -> M char_p.

(** [RegisterInstallFunctions]: the names and what they are bound to. *)
Definition RegisterInstallFunctions (fuel : nat) : list (string * Function_) :=
  [ ("mount", MountFn);
    ("unmount", UnmountFn);
    ("format", FormatFn);
    ("show_progress", ShowProgressFn);
    ("delete", DeleteFn fuel);
    ("delete_recursive", DeleteFn fuel);
    ("package_extract", PackageExtractFn);
    ("symlink", SymlinkFn);
    ("set_perm", SetPermFn);
    ("set_perm_recursive", SetPermFn) ].

End Updater.

Arguments Returns {P A} a s.
Arguments Undefined {P A} why s.
Arguments OutOfFuel {P A} s.

(** ** A small platform to run the builtins on

    The world is the list of names that exist (paths, partitions, mount
    points). Unlinking takes a name away if it is there, a symlink or an
    extracted file adds one, a partition or a volume is found when its
    name is there. *)
Definition has (w : list string) (x : string) : bool :=
  existsb (String.eqb x) w.

Definition without (w : list string) (x : string) : list string :=
  filter (fun y => negb (String.eqb x y)) w.

Definition demo_exec (c : Call) (w : list string) : Z * list string :=
  match c with
  | c_unlink p | c_dirUnlinkHierarchy p =>
      if has w p then (0, without w p) else (-1, w)
  | c_mtd_find_partition_by_name n => (if has w n then 1 else 0, w)
  | c_find_mounted_volume_by_mount_point m => (if has w m then 1 else 0, w)
  | c_mount src tgt _ _ _ => if has w src then (0, tgt :: w) else (-1, w)
  | c_mtd_mount_partition _ m _ _ => (0, m :: w)
  | c_mtd_write_partition m => (m, w)
  | c_mzExtractRecursive _ zip dest _ _ _ =>
      if has w zip then (1, dest :: w) else (0, w)
  | c_symlink _ l => if has w l then (-1, w) else (0, l :: w)
  | _ => (0, w)
  end.

#[export] Instance demo : Platform := {
  World := list string;
  exec := demo_exec;
  strerror_errno := fun _ => "Invalid argument";
  show_double := fun s => s;
  ULONG_MAX := 4294967295;
  MS_NOATIME := 1024;
  MS_NODEV := 4;
  MS_NODIRATIME := 2048;
  MZ_EXTRACT_FILES_ONLY := 1
}.

Definition demo_state (w : list string) : @State demo :=
  mk_State w 1%nat [] [] [] [].

Definition demo_cookie : UpdaterInfo := mk_UpdaterInfo 3 7.

(** The same platform with a wall clock: the world is the time and the
    names that exist; every driver call takes one tick and otherwise
    does what it does on the small platform. *)
Definition timed_exec (c : Call) (w : Z * list string)
  : Z * (Z * list string) :=
  (fst (demo_exec c (snd w)), (fst w + 1, snd (demo_exec c (snd w)))).

Definition timed : Platform := {|
  World := Z * list string;
  exec := timed_exec;
  strerror_errno := fun _ => "Invalid argument";
  show_double := fun s => s;
  ULONG_MAX := 4294967295;
  MS_NOATIME := 1024;
  MS_NODEV := 4;
  MS_NODIRATIME := 2048;
  MZ_EXTRACT_FILES_ONLY := 1
|}.

(** A state of the timed platform at a given time. *)
Definition timed_state (now : Z) (names : list string) : @State timed :=
  mk_State (P := timed) (now, names) 1%nat [] [] [] [].

Arguments truncate : simpl never.
Arguments itoa : simpl never.
Arguments ptr_eqb : simpl never.
Arguments strtoul : simpl never.
Arguments to_int : simpl never.
Arguments not_a_number : simpl never.
Arguments strtol : simpl never.

(** ** Vocabulary of the statements *)

(** The values [eval_nodes] makes of texts, from address [a] on. *)
Fixpoint place (a : nat) (ss : list string) : list cstr :=
  match ss with
  | [] => []
  | s :: ss' => mk_cstr a s :: place (S a) ss'
  end.

(** The builtins that refuse an empty argument, with their arity. *)
Definition refuse_empty {P : Platform} : list (Function_ * nat) :=
  [ (MountFn, 3%nat); (UnmountFn, 1%nat); (FormatFn, 2%nat) ].

(** The one driver call of package_extract, with the timestamp of
    line 258 in both fields. *)
Definition extract_call {P : Platform} (cookie : UpdaterInfo)
  (zip_path dest_path : string) : Call :=
  c_mzExtractRecursive (package_zip cookie) zip_path dest_path
    MZ_EXTRACT_FILES_ONLY 1217592000 1217592000.

(** The driver's answers to a list of calls made one after the other,
    oldest first, and the world they leave. *)
Fixpoint drive {P : Platform} (cs : list Call) (w : World)
  : list (Call * Z) * World :=
  match cs with
  | [] => ([], w)
  | c :: cs' =>
      let r := exec c w in
      let d := drive cs' (snd r) in
      ((c, fst r) :: fst d, snd d)
  end.

(** What set_perm does to one target. *)
Definition perm_calls (uid gid mode : Z) (path : string) : list Call :=
  [c_chown path uid gid; c_chmod path mode].

(** What [SetPermFn] parses of a numeric argument. *)
Definition parsed {P : Platform} (arg : string) : Z :=
  to_int (fst (strtoul arg 0)).

(** The numeric arguments of set_perm and of set_perm_recursive, by the
    names the messages give them. *)
Definition numeric_labels (name : string) : list string :=
  if String.eqb name "set_perm_recursive"
  then ["uid"; "gid"; "dirmode"; "filemode"]
  else ["uid"; "gid"; "mode"].

(** The first numeric argument that does not parse, with its label. *)
Fixpoint first_bad {P : Platform} (labels args : list string)
  : option (string * string) :=
  match labels, args with
  | l :: labels', a :: args' =>
      if not_a_number a then Some (l, a) else first_bad labels' args'
  | _, _ => None
  end.

(** How many calls of a log reported success by returning 0, which is
    the test of the delete loop. *)
Definition removed (log : list (Call * Z)) : Z :=
  Z.of_nat (List.length (filter (fun e => snd e =? 0) log)).

(** The removal [DeleteFn] asks for under a name. *)
Definition removal (name : string) : string -> Call :=
  if String.eqb name "delete_recursive" then c_dirUnlinkHierarchy
  else c_unlink.

(** The builtins of fixed arity: the count they want, and how their
    message words it. *)
Definition fixed_arity {P : Platform} : list (Function_ * (Z * string)) :=
  [ (MountFn, (3, "3 args"));
    (UnmountFn, (1, "1 arg"));
    (FormatFn, (2, "2 args"));
    (ShowProgressFn, (2, "2 args"));
    (PackageExtractFn, (2, "2 args")) ].

(** What a return value says of the error slot. A value comes with
    the slot untouched. NULL comes with a message set by ErrorAbort, or
    with an argument whose evaluation failed, or, from format alone,
    with [unsupported]: an unsupported type. *)
Definition accounted {P : Platform} (unsupported : Prop) (argv : list Expr)
  (st st' : State) (r : char_p) : Prop :=
  match r with
  | Some _ => errors st' = errors st
  | None =>
      (exists msg : cstr, errors st' = msg :: errors st) \/
      (errors st' = errors st /\ In fails argv) \/
      (errors st' = errors st /\ unsupported)
  end.
Arguments accounted : simpl never.

(** The builtins that check their arity before anything else and
    report a violation in full: the test on [argc] and how the message
    words the count wanted. *)
Definition arity_checked {P : Platform}
  : list (Function_ * ((Z -> bool) * string)) :=
  [ (MountFn, (Z.eqb 3, "3 args"));
    (UnmountFn, (Z.eqb 1, "1 arg"));
    (FormatFn, (Z.eqb 2, "2 args"));
    (ShowProgressFn, (Z.eqb 2, "2 args"));
    (PackageExtractFn, (Z.eqb 2, "2 args"));
    (SymlinkFn, (fun argc => negb (argc =? 0), "1+ args")) ].

(** The state an outcome stops in. *)
Definition state_of {P : Platform} {A : Type} (o : Outcome A) : State :=
  match o with
  | Returns _ s => s
  | Undefined _ s => s
  | OutOfFuel s => s
  end.

(** The blocks a call leaves to others: the messages it gave to
    SetError and the value it returns. *)
Definition holds (E : list cstr) (r : char_p) : list nat :=
  (map addr E ++ match r with Some v => [addr v] | None => [] end)%list.

(** A call from [st] to [st'] returning [r] accounts for its memory:
    the blocks allocated during the call, the addresses from [brk st]
    up to [brk st'], are the blocks it freed, the messages it set and
    the value it returns, each of them once. *)
Definition balanced {P : Platform} (st st' : State) (r : char_p) : Prop :=
  exists (F : list nat) (E : list cstr),
    freed st' = (F ++ freed st)%list /\
    errors st' = (E ++ errors st)%list /\
    NoDup (F ++ holds E r) /\
    forall a : nat, In a (F ++ holds E r) <-> (brk st <= a < brk st')%nat.

(** The builtins that account for their memory whenever they return. *)
Definition leak_free {P : Platform} (fuel : nat) : list Function_ :=
  [ MountFn; UnmountFn; FormatFn; ShowProgressFn; DeleteFn fuel;
    PackageExtractFn; SetPermFn ].

(** An outcome that left the drivers alone. *)
Definition quiet {P : Platform} {A : Type} (st : State) (o : Outcome A)
  : Prop :=
  calls (state_of o) = calls st /\ world (state_of o) = world st.

(** Of a log of format's driver calls, latest first: the write
    contexts opened, and the write contexts closed. *)
Definition opened (log : list (Call * Z)) : list Z :=
  flat_map (fun e => match e with
                     | (c_mtd_write_partition _, ctx) =>
                         if ctx =? 0 then [] else [ctx]
                     | _ => []
                     end) log.

Definition closed (log : list (Call * Z)) : list Z :=
  flat_map (fun e => match e with
                     | (c_mtd_write_close ctx, _) => [ctx]
                     | _ => []
                     end) log.

Section Properties.
Context {P : Platform}.

Lemma eval_nodes_yields (ss : list string) :
  forall (got : list cstr) (st : State),
    eval_nodes (map yields ss) got st =
    Returns (Some (got ++ place (brk st) ss)%list)
      (mk_State (world st) (List.length ss + brk st) (freed st) (errors st)
         (stderr st) (calls st)).
Proof.
  induction ss as [|s ss IH]; intros got st; simpl.
  - rewrite app_nil_r. destruct st; reflexivity.
  - unfold bind at 1. simpl. rewrite IH. simpl.
    rewrite <- app_assoc. simpl. do 2 f_equal. lia.
Qed.

Lemma free_all_log (ps : list cstr) :
  forall st : State,
    free_all ps st =
    Returns tt
      (mk_State (world st) (brk st) (rev (map addr ps) ++ freed st)%list
         (errors st) (stderr st) (calls st)).
Proof.
  induction ps as [|p ps IH]; intros st; simpl.
  - destruct st; reflexivity.
  - unfold bind, free, free_addr. rewrite IH. simpl.
    rewrite <- app_assoc. reflexivity.
Qed.

Lemma ptr_eqb_same (p : cstr) : ptr_eqb (Some p) (Some p) = true.
Proof. apply Nat.eqb_refl. Qed.

Lemma ptr_eqb_apart (a b : nat) (s t : string) :
  a <> b -> ptr_eqb (Some (mk_cstr a s)) (Some (mk_cstr b t)) = false.
Proof. intros H. apply Nat.eqb_neq. exact H. Qed.

Lemma ptr_eqb_null (p : cstr) : ptr_eqb None (Some p) = false.
Proof. reflexivity. Qed.

(** One step of running a builtin on a symbolic state: settle a
    pointer comparison, or split on the test the run is stuck at. *)
Ltac step :=
  match goal with
  | |- context [ptr_eqb (Some ?p) (Some ?p)] => rewrite (ptr_eqb_same p)
  | |- context [ptr_eqb (Some (mk_cstr ?a ?s)) (Some (mk_cstr ?b ?t))] =>
      rewrite (ptr_eqb_apart a b s t) by lia
  | |- context [ptr_eqb None (Some ?p)] => rewrite (ptr_eqb_null p)
  | |- context [negb ?b] =>
      lazymatch b with
      | ptr_eqb _ _ => fail
      | _ => let E := fresh "E" in destruct b eqn:E
      end
  | |- context [if ?c then _ else _] =>
      lazymatch c with
      | context [ptr_eqb] => fail
      | _ => let E := fresh "E" in destruct c eqn:E
      end
  end.

Ltac run := repeat (cbn; step); cbn.

(** C10. mount, unmount and format, given arguments that all evaluate
    and of which one is the empty text, return NULL; one message was
    handed to SetError by ErrorAbort; each evaluated argument (the
    addresses from [brk st] on) was freed once; no driver was called
    and nothing was printed. *)
Theorem empty_argument_aborts :
  forall (f : Function_) (n : nat),
    In (f, n) refuse_empty ->
    forall (name : string) (cookie : UpdaterInfo) (args : list string)
           (st : State),
      List.length args = n ->
      In EmptyString args ->
      exists msg : cstr,
        f name cookie (map yields args) st =
        Returns None
          (mk_State (world st) (S (n + brk st))
             (rev (seq (brk st) n) ++ freed st)%list
             (msg :: errors st) (stderr st) (calls st)).
Proof.
  intros f n Hf name cookie args st Hlen Hin.
  simpl in Hf.
  destruct Hf as [Hf | [Hf | [Hf | []]]]; injection Hf as <- <-.
  - destruct args as [|t [|l [|m [|? ?]]]]; try discriminate Hlen.
    destruct t as [|c t].
    + eexists. cbn. reflexivity.
    + destruct l as [|c' l].
      * eexists. cbn. reflexivity.
      * destruct m as [|c'' m].
        -- eexists. cbn. reflexivity.
        -- exfalso. simpl in Hin. intuition discriminate.
  - destruct args as [|m [|? ?]]; try discriminate Hlen.
    destruct m as [|c m].
    + eexists. cbn. reflexivity.
    + exfalso. simpl in Hin. intuition discriminate.
  - destruct args as [|t [|l [|? ?]]]; try discriminate Hlen.
    destruct t as [|c t].
    + eexists. cbn. reflexivity.
    + destruct l as [|c' l].
      * eexists. cbn. reflexivity.
      * exfalso. simpl in Hin. intuition discriminate.
Qed.

(** C6. mount with three evaluated, non-empty arguments returns a
    value, decided by what the drivers answer to this call. The mount
    point is created, then for the type "MTD" the partitions are
    scanned, the location is looked up and, if found, mounted; for any
    other type the generic mount is called. When the driver mounted
    (the partition was found and mtd_mount_partition gave 0, or mount
    gave no negative value) the value is the mount_point argument
    itself, the third evaluated block, which is not freed. When the
    mount failed or the partition is absent the value is a fresh block
    holding the empty text, and mount_point is freed once. type and
    location are freed once either way, and no error is set. *)
Theorem mount_result_ownership :
  forall (name : string) (cookie : UpdaterInfo)
         (type location mount_point : string) (st : State),
    type <> EmptyString ->
    location <> EmptyString ->
    mount_point <> EmptyString ->
    let made := exec (c_mkdir mount_point 493) (world st) in
    let scanned := exec c_mtd_scan_partitions (snd made) in
    let found := exec (c_mtd_find_partition_by_name location) (snd scanned) in
    let by_mtd :=
      exec (c_mtd_mount_partition (fst found) mount_point "yaffs2" 0)
        (snd found) in
    let by_mount :=
      exec (c_mount location mount_point type
              (Z.lor (Z.lor MS_NOATIME MS_NODEV) MS_NODIRATIME) EmptyString)
        (snd made) in
    let mounted :=
      if String.eqb type "MTD"
      then negb (fst found =? 0) && (fst by_mtd =? 0)
      else 0 <=? fst by_mount in
    exists st' : State,
      MountFn name cookie [yields type; yields location; yields mount_point] st
      = Returns
          (Some (if mounted then mk_cstr (2 + brk st) mount_point
                 else mk_cstr (3 + brk st) EmptyString))
          st' /\
      world st' =
        (if String.eqb type "MTD"
         then if fst found =? 0 then snd found else snd by_mtd
         else snd by_mount) /\
      calls st' =
        ((if String.eqb type "MTD"
          then (if fst found =? 0 then []
                else [(c_mtd_mount_partition (fst found) mount_point
                         "yaffs2" 0, fst by_mtd)])
               ++ [(c_mtd_find_partition_by_name location, fst found);
                   (c_mtd_scan_partitions, fst scanned)]
          else [(c_mount location mount_point type
                   (Z.lor (Z.lor MS_NOATIME MS_NODEV) MS_NODIRATIME)
                   EmptyString, fst by_mount)])
         ++ (c_mkdir mount_point 493, fst made) :: calls st)%list /\
      errors st' = errors st /\
      brk st' = ((if mounted then 3 else 4) + brk st)%nat /\
      freed st' =
        ((if mounted then [1 + brk st; brk st]
          else [2 + brk st; 1 + brk st; brk st]) ++ freed st)%nat%list.
Proof.
  intros name cookie type location mount_point st Ht Hl Hm.
  cbv zeta. rewrite Z.leb_antisym.
  destruct type as [|c0 t]; [contradiction|].
  destruct location as [|c1 l]; [contradiction|].
  destruct mount_point as [|c2 m]; [contradiction|].
  unfold MountFn. run.
  all: try congruence.
  all: eexists; (split; [reflexivity|]); cbn; repeat split.
Qed.

(** format of a type other than "MTD": the branch of line 186 prints
    to stderr and leaves [result] NULL, so NULL is returned although
    ErrorAbort was never called and no message was set. *)
Lemma FormatFn_unsupported_type :
  forall (name : string) (cookie : UpdaterInfo) (type location : string)
         (st : State),
    type <> EmptyString ->
    location <> EmptyString ->
    String.eqb type "MTD" = false ->
    FormatFn name cookie [yields type; yields location] st =
    Returns None
      (mk_State (world st) (2 + brk st)
         ([1 + brk st; brk st] ++ freed st)%nat%list
         (errors st)
         ((name ++ ": unsupported type " ++ dq ++ type ++ dq)%string
            :: stderr st)
         (calls st)).
Proof.
  intros name cookie type location st Ht Hl Hneq.
  destruct type as [|c0 t]; [contradiction|].
  destruct location as [|c1 l]; [contradiction|].
  unfold FormatFn. cbn -[String.eqb]. rewrite Hneq. cbn. reflexivity.
Qed.

(** C1, at format("ext4", "/dev/block/mmcblk0p2"): both arguments
    evaluate and are not empty, the type is not "MTD". The builtin
    returns NULL, the abort signal, not an owned empty text; the error
    slot is as before, so ErrorAbort was not called; both arguments
    were freed and no driver was called. *)
Theorem format_unsupported_type_returns_null :
  forall (cookie : UpdaterInfo) (st : State),
    FormatFn "format" cookie [yields "ext4"; yields "/dev/block/mmcblk0p2"] st
    = Returns None
        (mk_State (world st) (2 + brk st)
           ([1 + brk st; brk st] ++ freed st)%nat%list
           (errors st)
           (("format: unsupported type " ++ dq ++ "ext4" ++ dq)%string
              :: stderr st)
           (calls st)).
Proof.
  intros cookie st.
  apply FormatFn_unsupported_type; [discriminate | discriminate | reflexivity].
Qed.

(** One run of package_extract: a fresh value is returned, "t" when
    the extraction reported success and the empty text otherwise; the
    only driver call is the extraction with the fixed timestamp; both
    arguments are freed and no error is set. *)
Lemma PackageExtractFn_run :
  forall (name : string) (cookie : UpdaterInfo) (zip_path dest_path : string)
         (st : State),
    let r := exec (extract_call cookie zip_path dest_path) (world st) in
    PackageExtractFn name cookie [yields zip_path; yields dest_path] st =
    Returns
      (Some (mk_cstr (2 + brk st) (if fst r =? 0 then "" else "t")))
      (mk_State (snd r) (3 + brk st)
         ([1 + brk st; brk st] ++ freed st)%nat%list
         (errors st) (stderr st)
         ((extract_call cookie zip_path dest_path, fst r) :: calls st)).
Proof.
  intros name cookie zip_path dest_path st r.
  unfold PackageExtractFn. cbn. fold (extract_call cookie zip_path dest_path).
  fold r. destruct (fst r =? 0); reflexivity.
Qed.

(** C7. Two runs of package_extract on the same arguments, from any
    two states, so at any two times and whatever was allocated, logged
    or done before. Each run asks the driver for one thing, the
    extraction of the cookie's archive with 1217592000 as access and
    as modification time: the two calls are the same call, and nothing
    of the state, no clock, enters it. Each run returns a fresh value
    decided by what the driver answers in its world, "t" when it
    reports success and the empty text when not, never NULL, sets no
    error and leaves the world the driver leaves. Hence, for whatever
    of the world the driver looks at when it extracts (the archive and
    the disk, [view]): two runs that start from the same view return
    the same text and leave the same view, however else their worlds
    differ. *)
Theorem package_extract_reproducible :
  forall (name : string) (cookie : UpdaterInfo) (zip_path dest_path : string)
         (st1 st2 : State),
    let c :=
      c_mzExtractRecursive (package_zip cookie) zip_path dest_path
        MZ_EXTRACT_FILES_ONLY 1217592000 1217592000 in
    let run := PackageExtractFn name cookie [yields zip_path; yields dest_path] in
    let after (st : State) : Outcome char_p :=
      Returns
        (Some (mk_cstr (2 + brk st)
                 (if fst (exec c (world st)) =? 0 then "" else "t")))
        (mk_State (snd (exec c (world st))) (3 + brk st)
           ([1 + brk st; brk st] ++ freed st)%nat%list
           (errors st) (stderr st)
           ((c, fst (exec c (world st))) :: calls st)) in
    run st1 = after st1 /\
    run st2 = after st2 /\
    forall (V : Type) (view : World -> V),
      (forall w1 w2 : World,
          view w1 = view w2 ->
          fst (exec c w1) = fst (exec c w2) /\
          view (snd (exec c w1)) = view (snd (exec c w2))) ->
      view (world st1) = view (world st2) ->
      forall (v1 v2 : char_p) (st1' st2' : State),
        run st1 = Returns v1 st1' ->
        run st2 = Returns v2 st2' ->
        option_map text v1 = option_map text v2 /\
        v1 <> None /\
        view (world st1') = view (world st2').
Proof.
  intros name cookie zip_path dest_path st1 st2 c run after.
  assert (Hrun : forall st : State, run st = after st).
  { intros st. subst run after c. cbv beta.
    rewrite PackageExtractFn_run. reflexivity. }
  split; [apply Hrun|]. split; [apply Hrun|].
  intros V view Hdriver Hview v1 v2 st1' st2' H1 H2.
  rewrite Hrun in H1, H2. subst after. cbv beta in H1, H2.
  injection H1 as <- <-. injection H2 as <- <-.
  destruct (Hdriver (world st1) (world st2) Hview) as [Hrc Hw].
  cbn. rewrite Hrc. split; [reflexivity|]. split; [discriminate|exact Hw].
Qed.

Lemma addr_place (ss : list string) :
  forall a : nat, map addr (place a ss) = seq a (List.length ss).
Proof.
  induction ss as [|s ss IH]; intros a; simpl; [reflexivity|].
  rewrite IH. reflexivity.
Qed.

Lemma text_place (ss : list string) :
  forall a : nat, map text (place a ss) = ss.
Proof.
  induction ss as [|s ss IH]; intros a; simpl; [reflexivity|].
  rewrite IH. reflexivity.
Qed.

Lemma ReadVarArgs_yields (ss : list string) (st : State) :
  ReadVarArgs (argc_of (map yields ss)) (map yields ss) st =
  Returns (Some (mk_array (brk st) (place (S (brk st)) ss)))
    (mk_State (world st) (List.length ss + S (brk st)) (freed st) (errors st)
       (stderr st) (calls st)).
Proof.
  unfold ReadVarArgs, argc_of. rewrite Nat2Z.id, firstn_all.
  unfold bind at 1. cbn -[eval_nodes].
  unfold bind. rewrite eval_nodes_yields. reflexivity.
Qed.

Lemma chown_chmod_each_log (uid gid mode : Z) (targets : list cstr) :
  forall st : State,
    let d := drive (flat_map (perm_calls uid gid mode) (map text targets))
               (world st) in
    chown_chmod_each targets uid gid mode st =
    Returns tt
      (mk_State (snd d) (brk st) (freed st) (errors st) (stderr st)
         (rev (fst d) ++ calls st)%list).
Proof.
  induction targets as [|p ps IH]; intros st; cbn.
  - destruct st; reflexivity.
  - unfold bind, call. cbn. rewrite IH. cbn.
    rewrite <- !app_assoc. reflexivity.
Qed.

(** set_perm, given at least four arguments that evaluate and whose
    first three parse: chown and chmod reach the arguments from the
    fifth on (index 4) and nothing else; the fourth (index 3), the
    first target, is left alone. *)
Lemma SetPermFn_set_perm_run :
  forall (cookie : UpdaterInfo) (uid gid mode first : string)
         (others : list string) (st : State),
    not_a_number uid = false ->
    not_a_number gid = false ->
    not_a_number mode = false ->
    let d := drive (flat_map (perm_calls (parsed uid) (parsed gid)
                                (parsed mode)) others) (world st) in
    let n := List.length (uid :: gid :: mode :: first :: others) in
    SetPermFn "set_perm" cookie
      (map yields (uid :: gid :: mode :: first :: others)) st =
    Returns (Some (mk_cstr (S n + brk st) EmptyString))
      (mk_State (snd d) (2 + n + brk st)
         (brk st :: rev (seq (S (brk st)) n) ++ freed st)%list
         (errors st) (stderr st) (rev (fst d) ++ calls st)%list).
Proof.
  intros cookie uid gid mode first others st Hu Hg Hm d n.
  unfold SetPermFn.
  change (String.eqb "set_perm" "set_perm_recursive") with false.
  cbv iota. replace (argc_of _ <? 4 + 0) with false.
  2:{ symmetry. apply Z.ltb_ge. unfold argc_of. cbn [map List.length]. lia. }
  unfold bind at 1. rewrite ReadVarArgs_yields.
  cbn -[chown_chmod_each free_all]. rewrite Hu. cbn -[chown_chmod_each free_all].
  rewrite Hg. cbn -[chown_chmod_each free_all].
  rewrite Hm. cbn -[chown_chmod_each free_all].
  unfold bind at 1. rewrite chown_chmod_each_log. rewrite text_place.
  fold (parsed uid) (parsed gid) (parsed mode). fold d.
  cbn -[free_all d]. unfold bind. rewrite free_all_log. cbn -[d].
  rewrite addr_place. subst n. cbn [List.length seq rev].
  repeat rewrite <- app_assoc. cbn [app].
  unfold ret. rewrite <- !plus_n_Sm. reflexivity.
Qed.

(** C3, at set_perm("0", "0", "0644", "/a") and at
    set_perm("0", "0", "0644", "/a", "/b"): the three numbers parse and
    the builtin returns the empty text, but the loop of line 343 starts
    at index 4. With the one target "/a" no driver is called at all;
    with two targets chown and chmod are applied to "/b" only. *)
Theorem set_perm_skips_first_target :
  forall (cookie : UpdaterInfo) (st : State),
    SetPermFn "set_perm" cookie
      [yields "0"; yields "0"; yields "0644"; yields "/a"] st =
    Returns (Some (mk_cstr (5 + brk st) EmptyString))
      (mk_State (world st) (6 + brk st)
         ([brk st; 4 + brk st; 3 + brk st; 2 + brk st; 1 + brk st]
            ++ freed st)%nat%list
         (errors st) (stderr st) (calls st))
    /\
    exists st' : State,
      SetPermFn "set_perm" cookie
        [yields "0"; yields "0"; yields "0644"; yields "/a"; yields "/b"] st =
      Returns (Some (mk_cstr (6 + brk st) EmptyString)) st' /\
      map fst (calls st') =
        ([c_chmod "/b" (parsed "0644"); c_chown "/b" (parsed "0") (parsed "0")]
           ++ map fst (calls st))%list.
Proof.
  intros cookie st. split.
  - exact (SetPermFn_set_perm_run cookie "0" "0" "0644" "/a" [] st
             eq_refl eq_refl eq_refl).
  - eexists. split.
    + exact (SetPermFn_set_perm_run cookie "0" "0" "0644" "/a" ["/b"] st
               eq_refl eq_refl eq_refl).
    + reflexivity.
Qed.

(** With fewer arguments than [min_args], [SetPermFn] calls ErrorAbort
    with a format of three conversions and two arguments, the name and
    [argc]: [min_args] is not passed, and the last [%d] reads an
    argument that is not there. *)
Lemma SetPermFn_too_few_arguments :
  forall (name : string) (cookie : UpdaterInfo) (argv : list Expr)
         (st : State),
    argc_of argv
    < 4 + (if String.eqb name "set_perm_recursive" then 1 else 0) ->
    SetPermFn name cookie argv st =
    Undefined "printf: argument missing"
      (mk_State (world st) (S (brk st)) (freed st) (errors st) (stderr st)
         (calls st)).
Proof.
  intros name cookie argv st Hlt.
  unfold SetPermFn. apply Z.ltb_lt in Hlt. rewrite Hlt.
  reflexivity.
Qed.

(** C4, at set_perm("0", "0", "0644"), one argument short: the format
    "%s() expects %d+ args, got %d" is given the name and the count 3
    and nothing for its last conversion, so no message can be made of
    it: the call is undefined, and no error is recorded. The expected
    count 4 is not among the arguments of the format. *)
Theorem set_perm_arity_message_undefined :
  forall (cookie : UpdaterInfo) (st : State),
    SetPermFn "set_perm" cookie [yields "0"; yields "0"; yields "0644"] st =
    Undefined "printf: argument missing"
      (mk_State (world st) (S (brk st)) (freed st) (errors st) (stderr st)
         (calls st))
    /\ format "%s() expects %d+ args, got %d" [arg_s "set_perm"; arg_d 3]
       = None
    /\ format "%s() expects %d+ args, got %d"
         [arg_s "set_perm"; arg_d 4; arg_d 3]
       = Some "set_perm() expects 4+ args, got 3".
Proof.
  intros cookie st. split; [|split].
  - apply SetPermFn_too_few_arguments. reflexivity.
  - reflexivity.
  - reflexivity.
Qed.

Lemma first_bad_sound (labels args : list string) :
  forall what token : string,
    first_bad labels args = Some (what, token) ->
    In token (firstn (List.length labels) args) /\
    In what labels /\
    not_a_number token = true.
Proof.
  revert args.
  induction labels as [|l labels IH]; intros args what token H;
    [discriminate H|].
  destruct args as [|a args]; [discriminate H|].
  simpl in H. destruct (not_a_number a) eqn:E.
  - injection H as <- <-. simpl. auto.
  - destruct (IH args what token H) as (H1 & H2 & H3). simpl. auto.
Qed.

(** C9. set_perm and set_perm_recursive, called with their numeric
    arguments and at least one target, all of which evaluate: if one
    of the numeric arguments does not parse (it is empty, or strtoul
    stops before its end), the builtin returns NULL; ErrorAbort set one
    message, which names the first such argument by its text and its
    label; no driver was called, so no chown and no chmod happened and
    the world is as before; every argument was freed once, then the
    array. *)
Theorem set_perm_rejects_bad_number :
  forall (name : string) (cookie : UpdaterInfo) (args : list string)
         (st : State),
    (List.length (numeric_labels name) < List.length args)%nat ->
    existsb not_a_number (firstn (List.length (numeric_labels name)) args)
    = true ->
    exists what token : string,
      first_bad (numeric_labels name) args = Some (what, token) /\
      In token (firstn (List.length (numeric_labels name)) args) /\
      not_a_number token = true /\
      SetPermFn name cookie (map yields args) st =
      Returns None
        (mk_State (world st) (2 + List.length args + brk st)
           (brk st :: rev (seq (S (brk st)) (List.length args)) ++ freed st)%list
           (mk_cstr (1 + List.length args + brk st)
              (truncate 4096
                 (name ++ ": " ++ dq ++ token ++ dq ++ " not a valid " ++ what))
              :: errors st)
           (stderr st) (calls st)).
Proof.
  intros name cookie args st Hlen Hbad.
  assert (Hrun : exists what token : string,
    first_bad (numeric_labels name) args = Some (what, token) /\
    SetPermFn name cookie (map yields args) st =
    Returns None
      (mk_State (world st) (2 + List.length args + brk st)
         (brk st :: rev (seq (S (brk st)) (List.length args)) ++ freed st)%list
         (mk_cstr (1 + List.length args + brk st)
            (truncate 4096
               (name ++ ": " ++ dq ++ token ++ dq ++ " not a valid " ++ what))
            :: errors st)
         (stderr st) (calls st))).
  2:{ destruct Hrun as (what & token & Hfirst & Hrun).
      exists what, token.
      destruct (first_bad_sound _ _ _ _ Hfirst) as (H1 & _ & H3). auto. }
  unfold SetPermFn, numeric_labels in *.
  destruct (String.eqb name "set_perm_recursive") eqn:Hn.
  all: destruct args as [|a0 [|a1 [|a2 [|a3 rest]]]];
    try (exfalso; simpl in Hlen; lia).
  all: replace (argc_of _ <? _) with false
    by (symmetry; apply Z.ltb_ge; unfold argc_of; rewrite length_map;
        simpl in Hlen |- *; lia).
  all: unfold bind at 1; rewrite ReadVarArgs_yields.
  all: cbn -[free_all] in Hbad |- *.
  all: repeat match goal with
         | |- context [not_a_number ?a] =>
             let E := fresh "E" in
             destruct (not_a_number a) eqn:E; cbn -[free_all] in Hbad |- *
         end.
  all: try discriminate Hbad.
  all: do 2 eexists; (split; [reflexivity|]).
  all: unfold bind; cbn -[free_all]; rewrite free_all_log; cbn.
  all: rewrite addr_place; cbn [List.length seq rev].
  all: rewrite <- ?app_assoc; cbn [app]; rewrite <- ?plus_n_Sm.
  all: reflexivity.
Qed.

(** *** Decimal text *)

Lemma utoa_rec_length (fuel : nat) :
  forall (n : Z) (acc : string) (k : nat),
    (1 <= k)%nat ->
    0 <= n < 10 ^ Z.of_nat k ->
    (String.length (utoa_rec fuel n acc) <= String.length acc + k)%nat.
Proof.
  induction fuel as [|fuel IH]; intros n acc k Hk Hn; simpl; [lia|].
  destruct (n <? 10) eqn:E; simpl; [lia|].
  apply Z.ltb_ge in E.
  destruct k as [|k]; [lia|].
  destruct k as [|k]; [simpl in Hn; lia|].
  rewrite Nat2Z.inj_succ, Z.pow_succ_r in Hn by lia.
  specialize (IH (n / 10) (String (digit_char (n mod 10)) acc) (S k)).
  simpl in IH |- *. etransitivity; [apply IH|]; try lia.
  split.
  - apply Z.div_pos; lia.
  - apply Z.div_lt_upper_bound; lia.
Qed.

Lemma itoa_fits_buffer (z : Z) :
  0 <= z < 10 ^ 9 -> (String.length (itoa z) <? 10)%nat = true.
Proof.
  intros Hz. apply Nat.ltb_lt. unfold itoa.
  replace (z <? 0) with false by (symmetry; apply Z.ltb_ge; lia).
  unfold utoa.
  pose proof (utoa_rec_length (S (Z.to_nat (Z.log2 z))) z EmptyString 9) as H.
  simpl String.length in H. apply Nat.lt_succ_r. apply H; [lia|].
  exact Hz.
Qed.

Lemma decimal_value_digit (d : Z) (r : string) (acc : Z) :
  0 <= d < 10 ->
  decimal_value (String (digit_char d) r) acc = decimal_value r (acc * 10 + d).
Proof.
  intros Hd. unfold digit_char. cbn [decimal_value].
  rewrite nat_ascii_embedding by lia.
  replace (Z.of_nat (48 + Z.to_nat d)) with (48 + d) by lia.
  replace (48 <=? 48 + d) with true by (symmetry; apply Z.leb_le; lia).
  replace (48 + d <=? 57) with true by (symmetry; apply Z.leb_le; lia).
  cbn [andb]. f_equal. lia.
Qed.

Lemma decimal_value_utoa_rec (fuel : nat) :
  forall (n : Z) (acc : string),
    0 < n < 2 ^ Z.of_nat fuel ->
    exists k : nat,
      forall v : Z,
        decimal_value (utoa_rec fuel n acc) v =
        decimal_value acc (v * 10 ^ Z.of_nat k + n).
Proof.
  induction fuel as [|fuel IH]; intros n acc Hn; [simpl in Hn; lia|].
  simpl. destruct (n <? 10) eqn:E.
  - apply Z.ltb_lt in E. exists 1%nat. intros v.
    rewrite Z.mod_small by lia. rewrite decimal_value_digit by lia.
    f_equal.
  - apply Z.ltb_ge in E.
    rewrite Nat2Z.inj_succ, Z.pow_succ_r in Hn by lia.
    destruct (IH (n / 10) (String (digit_char (n mod 10)) acc)) as [k Hk].
    { split.
      - apply Z.div_str_pos; lia.
      - apply Z.div_lt_upper_bound; lia. }
    exists (S k). intros v. rewrite Hk.
    rewrite decimal_value_digit by (apply Z.mod_pos_bound; lia).
    f_equal. rewrite Nat2Z.inj_succ, Z.pow_succ_r by lia.
    pose proof (Z.div_mod n 10). lia.
Qed.

(** [itoa] of a count is its decimal representation: digits only,
    denoting the count. *)
Lemma decimal_value_itoa (n : Z) :
  0 <= n -> decimal_value (itoa n) 0 = Some n.
Proof.
  intros Hn. unfold itoa.
  replace (n <? 0) with false by (symmetry; apply Z.ltb_ge; lia).
  destruct (Z.eq_dec n 0) as [-> | Hpos]; [reflexivity|].
  unfold utoa.
  destruct (decimal_value_utoa_rec (S (Z.to_nat (Z.log2 n))) n EmptyString)
    as [k Hk].
  - split; [lia|]. rewrite Nat2Z.inj_succ, Z2Nat.id by apply Z.log2_nonneg.
    apply Z.log2_spec. lia.
  - rewrite Hk. simpl. reflexivity.
Qed.

(** *** delete and delete_recursive *)

Lemma drive_calls (cs : list Call) :
  forall w : World, map fst (fst (drive cs w)) = cs.
Proof.
  induction cs as [|c cs IH]; intros w; simpl; [reflexivity|].
  rewrite IH. reflexivity.
Qed.

Lemma removed_bounds (log : list (Call * Z)) :
  0 <= removed log <= Z.of_nat (List.length log).
Proof.
  unfold removed. pose proof (filter_length_le (fun e => snd e =? 0) log).
  lia.
Qed.

Lemma removed_cons (c : Call) (rc : Z) (log : list (Call * Z)) :
  removed ((c, rc) :: log) = (if rc =? 0 then 1 else 0) + removed log.
Proof.
  unfold removed. simpl. destruct (rc =? 0); simpl List.length; lia.
Qed.

Lemma delete_evaluate_yields (fuel paths_at : nat) (ss : list string) :
  forall (paths : list cstr) (st : State),
    delete_evaluate fuel paths_at (map yields ss) paths st =
    Returns (Some (paths ++ place (brk st) ss)%list)
      (mk_State (world st) (List.length ss + brk st) (freed st) (errors st)
         (stderr st) (calls st)).
Proof.
  induction ss as [|s ss IH]; intros paths st; simpl.
  - rewrite app_nil_r. destruct st; reflexivity.
  - unfold bind at 1. simpl. rewrite IH. simpl.
    rewrite <- app_assoc. simpl. do 2 f_equal. lia.
Qed.

Lemma delete_paths_log (recursive : bool) (paths : list cstr) :
  forall (success : Z) (st : State),
    let d := drive (map (if recursive then c_dirUnlinkHierarchy
                         else c_unlink) (map text paths))
               (world st) in
    delete_paths recursive paths success st =
    Returns (success + removed (fst d))
      (mk_State (snd d) (brk st) (rev (map addr paths) ++ freed st)%list
         (errors st) (stderr st) (rev (fst d) ++ calls st)%list).
Proof.
  induction paths as [|p paths IH]; intros success st; cbn.
  - unfold ret. rewrite Z.add_0_r. destruct st; reflexivity.
  - unfold bind, call, free, free_addr. cbn. rewrite IH. cbn.
    rewrite removed_cons. rewrite <- !app_assoc. cbn.
    destruct recursive; cbn;
      match goal with
      | |- context [if ?c =? 0 then _ else _] => destruct (c =? 0)
      end; f_equal; lia.
Qed.

(** C5. delete and delete_recursive, given paths that all evaluate
    (fewer than 10^9 of them, so that the count fits the ten bytes of
    [buffer]): one removal is asked of the driver per path, in order,
    by unlink, or by dirUnlinkHierarchy under the name
    delete_recursive; the value returned is a fresh text, the decimal
    representation of the number of removals that returned 0. It is
    never NULL and never empty, whatever the removals return, and no
    error is set. Every path is freed once, then the array. *)
Theorem delete_returns_count :
  forall (fuel : nat) (name : string) (cookie : UpdaterInfo)
         (paths : list string) (st : State),
    Z.of_nat (List.length paths) < 10 ^ 9 ->
    exists (log : list (Call * Z)) (w' : World),
      drive (map (removal name) paths) (world st) = (log, w') /\
      map fst log = map (removal name) paths /\
      DeleteFn fuel name cookie (map yields paths) st =
      Returns
        (Some (mk_cstr (1 + List.length paths + brk st) (itoa (removed log))))
        (mk_State w' (2 + List.length paths + brk st)
           (brk st :: rev (seq (S (brk st)) (List.length paths)) ++ freed st)%list
           (errors st) (stderr st) (rev log ++ calls st)%list) /\
      decimal_value (itoa (removed log)) 0 = Some (removed log) /\
      itoa (removed log) <> EmptyString.
Proof.
  intros fuel name cookie paths st Hlen.
  destruct (drive (map (removal name) paths) (world st)) as [log w'] eqn:Hd.
  exists log, w'.
  assert (Hcalls : map fst log = map (removal name) paths).
  { replace log with (fst (drive (map (removal name) paths) (world st)))
      by (rewrite Hd; reflexivity).
    apply drive_calls. }
  assert (Hcount : 0 <= removed log < 10 ^ 9).
  { pose proof (removed_bounds log) as Hb.
    assert (List.length log = List.length paths) as Hl.
    { rewrite <- (length_map fst log), Hcalls, length_map. reflexivity. }
    lia. }
  pose proof (decimal_value_itoa (removed log) (proj1 Hcount)) as Hdec.
  split; [reflexivity|]. split; [exact Hcalls|].
  split; [|split; [exact Hdec|]].
  - unfold DeleteFn. unfold bind at 1. cbn -[delete_evaluate].
    unfold bind at 1. rewrite delete_evaluate_yields.
    cbn -[delete_paths]. unfold bind at 1.
    rewrite delete_paths_log. cbn -[drive]. rewrite text_place.
    unfold removal in Hd.
    destruct (String.eqb name "delete_recursive"); cbn -[drive];
      rewrite Hd; cbn; unfold bind, sprintf_d;
      rewrite (itoa_fits_buffer _ Hcount); cbn;
      rewrite addr_place, <- !plus_n_Sm; reflexivity.
  - intros Hempty. rewrite Hempty in Hdec. simpl in Hdec.
    injection Hdec as Hz.
    unfold itoa in Hempty.
    replace (removed log <? 0) with false in Hempty
      by (symmetry; apply Z.ltb_ge; lia).
    rewrite <- Hz in Hempty. discriminate Hempty.
Qed.

(** The release loop of line 202 steps [i], not [j]: entered with a
    first cell and [0 < i], it frees that cell again on every turn and
    never returns; it stops only where the fuel ends or where [++i]
    overflows. *)
Lemma delete_release_never_returns (fuel : nat) :
  forall (paths : list cstr) (p : cstr) (i : Z) (st : State),
    nth_error paths 0 = Some p ->
    0 < i <= INT_MAX ->
    match delete_release fuel paths i 0 st with
    | Returns _ _ => False
    | Undefined _ st' | OutOfFuel st' =>
        exists n : nat,
          freed st' = (repeat (addr p) n ++ freed st)%list /\
          (n = fuel \/ Z.of_nat n = INT_MAX - i + 1)
    end.
Proof.
  induction fuel as [|fuel IH]; intros paths p i st Hp Hi;
    cbn [delete_release];
    replace (0 <? i) with true by (symmetry; apply Z.ltb_lt; lia).
  - unfold out_of_fuel. exists 0%nat. auto.
  - change (Z.to_nat 0) with 0%nat. rewrite Hp.
    unfold bind at 1, free, free_addr.
    destruct (i =? INT_MAX) eqn:E.
    + apply Z.eqb_eq in E. unfold undefined. exists 1%nat.
      split; [reflexivity|]. right. lia.
    + apply Z.eqb_neq in E.
      specialize (IH paths p (i + 1)
        (mk_State (world st) (brk st) (addr p :: freed st) (errors st)
           (stderr st) (calls st)) Hp ltac:(lia)).
      destruct (delete_release fuel paths (i + 1) 0 _) as [a s|why s|s];
        [exact IH| |].
      all: destruct IH as (n & Hfreed & Hn); exists (S n);
        cbn [freed] in Hfreed.
      all: split; [rewrite Hfreed; change (addr p :: freed st)
                     with ([addr p] ++ freed st)%list;
                   rewrite app_assoc, <- (repeat_cons n (addr p)); reflexivity
                  | lia].
Qed.

(** The first loop of [DeleteFn] on arguments of which the one after
    [ss] fails: the release loop is entered with the cells evaluated so
    far and their number as [i]. *)
Lemma delete_evaluate_fails (fuel paths_at : nat) (ss : list string)
  (rest : list Expr) :
  forall (paths : list cstr) (st : State),
    delete_evaluate fuel paths_at (map yields ss ++ fails :: rest)%list
      paths st =
    bind (delete_release fuel (paths ++ place (brk st) ss)%list
            (Z.of_nat (List.length (paths ++ place (brk st) ss)%list)) 0)
      (fun _ => bind (free_addr paths_at) (fun _ => ret None))
      (mk_State (world st) (List.length ss + brk st) (freed st) (errors st)
         (stderr st) (calls st)).
Proof.
  induction ss as [|s ss IH]; intros paths st; simpl.
  - rewrite app_nil_r. destruct st; reflexivity.
  - unfold bind at 1. simpl. rewrite IH. simpl.
    rewrite <- app_assoc. simpl. rewrite <- plus_n_Sm. reflexivity.
Qed.

(** C2, at delete("/a", e) with [e] an argument whose evaluation
    fails (the failure is at index 1, after one evaluated path): the
    builtin does not return, whatever fuel the release loop is given.
    Where the run stops, the first path (the block after the array)
    has been freed [n] times, once for each turn of the loop: all the
    fuel, or the 2^31 - 1 turns before [++i] overflows. The same path
    is freed again and again, and NULL is never returned. *)
Theorem delete_release_frees_first_path_again :
  forall (fuel : nat) (name : string) (cookie : UpdaterInfo) (st : State),
    match DeleteFn fuel name cookie [yields "/a"; fails] st with
    | Returns _ _ => False
    | Undefined _ st' | OutOfFuel st' =>
        exists n : nat,
          freed st' = (repeat (S (brk st)) n ++ freed st)%list /\
          (n = fuel \/ Z.of_nat n = INT_MAX)
    end.
Proof.
  intros fuel name cookie st.
  change [yields "/a"; fails] with (map yields ["/a"] ++ [fails])%list.
  unfold DeleteFn. unfold bind at 1. cbn [malloc].
  unfold bind at 1. rewrite delete_evaluate_fails.
  cbn [app place List.length brk world freed errors stderr calls Nat.add].
  change (Z.of_nat 1) with 1. unfold bind at 1.
  pose proof (delete_release_never_returns fuel
    [mk_cstr (S (brk st)) "/a"] (mk_cstr (S (brk st)) "/a") 1
    (mk_State (world st) (S (S (brk st))) (freed st) (errors st) (stderr st)
       (calls st)) eq_refl ltac:(unfold INT_MAX; lia)) as H.
  destruct (delete_release fuel _ 1 0 _) as [a s|why s|s]; [exact H| |].
  all: destruct H as (n & Hfreed & Hn); exists n; split; [exact Hfreed|lia].
Qed.

(** *** symlink *)

Lemma symlink_each_log (target : cstr) (srcs : list cstr) :
  forall st : State,
    let d := drive (map (c_symlink (text target)) (map text srcs))
               (world st) in
    symlink_each target srcs st =
    Returns tt
      (mk_State (snd d) (brk st) (rev (map addr srcs) ++ freed st)%list
         (errors st) (stderr st) (rev (fst d) ++ calls st)%list).
Proof.
  induction srcs as [|p srcs IH]; intros st; cbn.
  - destruct st; reflexivity.
  - unfold bind, call, free, free_addr. cbn. rewrite IH. cbn.
    rewrite <- !app_assoc. reflexivity.
Qed.

(** C8. symlink, given a target and sources that all evaluate: one
    symlink call is made per source, in order, and whatever these calls
    return the value is a fresh empty text and no error is set. Every
    source is freed once, then the array; the target, the first
    evaluated block (address [brk st]), is not among the blocks
    freed. *)
Theorem symlink_returns_empty_and_keeps_target :
  forall (name : string) (cookie : UpdaterInfo) (target : string)
         (srcs : list string) (st : State),
    exists (log : list (Call * Z)) (w' : World),
      drive (map (c_symlink target) srcs) (world st) = (log, w') /\
      SymlinkFn name cookie (map yields (target :: srcs)) st =
      Returns (Some (mk_cstr (2 + List.length srcs + brk st) EmptyString))
        (mk_State w' (3 + List.length srcs + brk st)
           ((S (brk st) :: rev (seq (2 + brk st) (List.length srcs)))
              ++ freed st)%list
           (errors st) (stderr st) (rev log ++ calls st)%list) /\
      ~ In (brk st) (S (brk st) :: rev (seq (2 + brk st) (List.length srcs))).
Proof.
  intros name cookie target srcs st.
  destruct (drive (map (c_symlink target) srcs) (world st)) as [log w'] eqn:Hd.
  exists log, w'. split; [reflexivity|]. split.
  - unfold SymlinkFn. cbn [map]. unfold bind at 1. cbn -[ReadVarArgs argc_of].
    unfold bind at 1.
    replace (argc_of (yields target :: map yields srcs) - 1)
      with (argc_of (map yields srcs))
      by (unfold argc_of; cbn [List.length]; lia).
    rewrite ReadVarArgs_yields. cbn -[symlink_each].
    unfold bind at 1. rewrite symlink_each_log. cbn -[drive].
    rewrite text_place, Hd. cbn. rewrite addr_place, <- !plus_n_Sm.
    reflexivity.
  - intros [H | H]; [lia|]. apply in_rev, in_seq in H. lia.
Qed.

(** *** Arity *)

Lemma append_empty_r (s : string) : (s ++ "")%string = s.
Proof.
  induction s as [|c s IH]; simpl; [reflexivity|]. rewrite IH. reflexivity.
Qed.

(** A builtin of fixed arity called with another number of arguments
    returns NULL after one ErrorAbort whose message names the function,
    the count it wants and the count it got; nothing is evaluated
    (only the message buffer is allocated) and no driver is called. *)
Lemma fixed_arity_violation :
  forall (f : Function_) (n : Z) (wants : string),
    In (f, (n, wants)) fixed_arity ->
    forall (name : string) (cookie : UpdaterInfo) (argv : list Expr)
           (st : State),
      argc_of argv <> n ->
      f name cookie argv st =
      Returns None
        (mk_State (world st) (S (brk st)) (freed st)
           (mk_cstr (brk st)
              (truncate 4096
                 (name ++ "() expects " ++ wants ++ ", got "
                  ++ itoa (argc_of argv)))
              :: errors st)
           (stderr st) (calls st)).
Proof.
  intros f n wants Hf name cookie argv st Hn.
  apply Z.eqb_neq in Hn.
  simpl in Hf.
  destruct Hf as [Hf | [Hf | [Hf | [Hf | [Hf | []]]]]];
    injection Hf as <- <- <-.
  all: unfold MountFn, UnmountFn, FormatFn, ShowProgressFn, PackageExtractFn;
    rewrite Hn; cbn; rewrite append_empty_r; reflexivity.
Qed.

(** symlink with no argument at all: the same, with "1+ args". *)
Lemma SymlinkFn_no_argument :
  forall (name : string) (cookie : UpdaterInfo) (st : State),
    SymlinkFn name cookie [] st =
    Returns None
      (mk_State (world st) (S (brk st)) (freed st)
         (mk_cstr (brk st)
            (truncate 4096 (name ++ "() expects 1+ args, got " ++ itoa 0))
            :: errors st)
         (stderr st) (calls st)).
Proof.
  intros name cookie st. cbn. rewrite append_empty_r. reflexivity.
Qed.

(** *** set_perm_recursive *)

Lemma set_hierarchy_each_log (uid gid dir_mode file_mode : Z)
  (targets : list cstr) :
  forall st : State,
    let d := drive (map (fun path => c_dirSetHierarchyPermissions path uid gid
                                       dir_mode file_mode)
                      (map text targets)) (world st) in
    set_hierarchy_each targets uid gid dir_mode file_mode st =
    Returns tt
      (mk_State (snd d) (brk st) (freed st) (errors st) (stderr st)
         (rev (fst d) ++ calls st)%list).
Proof.
  induction targets as [|p ps IH]; intros st; cbn.
  - destruct st; reflexivity.
  - unfold bind, call. cbn. rewrite IH. cbn.
    rewrite <- !app_assoc. reflexivity.
Qed.

(** X12. set_perm_recursive, given at least five arguments that
    evaluate and whose first four parse: every target, from index 4
    on, is handed to dirSetHierarchyPermissions with the parsed uid,
    gid, dir_mode and file_mode, in order, and nothing else is asked
    of the drivers. Whatever these calls return, the value is a fresh
    empty text and no error is set; every argument is freed once,
    then the array. *)
Lemma SetPermFn_recursive_run :
  forall (cookie : UpdaterInfo) (uid gid dir_mode file_mode : string)
         (targets : list string) (st : State),
    not_a_number uid = false ->
    not_a_number gid = false ->
    not_a_number dir_mode = false ->
    not_a_number file_mode = false ->
    targets <> [] ->
    let d := drive (map (fun path => c_dirSetHierarchyPermissions path
                                       (parsed uid) (parsed gid)
                                       (parsed dir_mode) (parsed file_mode))
                      targets) (world st) in
    let n := List.length (uid :: gid :: dir_mode :: file_mode :: targets) in
    SetPermFn "set_perm_recursive" cookie
      (map yields (uid :: gid :: dir_mode :: file_mode :: targets)) st =
    Returns (Some (mk_cstr (S n + brk st) EmptyString))
      (mk_State (snd d) (2 + n + brk st)
         (brk st :: rev (seq (S (brk st)) n) ++ freed st)%list
         (errors st) (stderr st) (rev (fst d) ++ calls st)%list).
Proof.
  intros cookie uid gid dir_mode file_mode targets st Hu Hg Hd Hf Hne d n.
  unfold SetPermFn.
  change (String.eqb "set_perm_recursive" "set_perm_recursive") with true.
  cbv iota. replace (argc_of _ <? 4 + 1) with false.
  2:{ symmetry. apply Z.ltb_ge. unfold argc_of.
      destruct targets; [contradiction|]. cbn [map List.length]. lia. }
  unfold bind at 1. rewrite ReadVarArgs_yields.
  cbn -[set_hierarchy_each free_all]. rewrite Hu.
  cbn -[set_hierarchy_each free_all]. rewrite Hg.
  cbn -[set_hierarchy_each free_all]. rewrite Hd.
  cbn -[set_hierarchy_each free_all]. rewrite Hf.
  cbn -[set_hierarchy_each free_all].
  unfold bind at 1. rewrite set_hierarchy_each_log. rewrite text_place.
  fold (parsed uid) (parsed gid) (parsed dir_mode) (parsed file_mode). fold d.
  cbn -[free_all d]. unfold bind. rewrite free_all_log. cbn -[d].
  rewrite addr_place. subst n. cbn [List.length seq rev].
  repeat rewrite <- app_assoc. cbn [app].
  unfold ret. rewrite <- !plus_n_Sm. reflexivity.
Qed.

(** *** The abort signal and the error slot *)

(** A list of nodes either evaluates throughout or has a first node
    that fails. *)
Lemma nodes_split (nodes : list Expr) :
  (exists ss : list string, nodes = map yields ss) \/
  (exists (ss : list string) (rest : list Expr),
      nodes = (map yields ss ++ fails :: rest)%list).
Proof.
  induction nodes as [|e nodes IH].
  - left. exists []. reflexivity.
  - destruct e as [s|].
    + destruct IH as [[ss ->] | (ss & rest & ->)].
      * left. exists (s :: ss). reflexivity.
      * right. exists (s :: ss), rest. reflexivity.
    + right. exists [], nodes. reflexivity.
Qed.

(** The adapter on nodes of which the one after [ss] fails: every
    value evaluated before is freed once, in order, and the failure is
    reported; no error is set here. *)
Lemma eval_nodes_fails (ss : list string) (rest : list Expr) :
  forall (got : list cstr) (st : State),
    eval_nodes (map yields ss ++ fails :: rest)%list got st =
    Returns None
      (mk_State (world st) (List.length ss + brk st)
         (rev (map addr (got ++ place (brk st) ss)) ++ freed st)%list
         (errors st) (stderr st) (calls st)).
Proof.
  induction ss as [|s ss IH]; intros got st; simpl.
  - unfold bind. simpl. rewrite free_all_log. simpl. rewrite app_nil_r.
    reflexivity.
  - unfold bind at 1. simpl. rewrite IH. simpl.
    rewrite <- app_assoc. simpl. rewrite <- plus_n_Sm. reflexivity.
Qed.

Lemma delete_release_no_return (fuel : nat) :
  forall (paths : list cstr) (p : cstr) (i : Z) (st : State),
    nth_error paths 0 = Some p ->
    0 < i ->
    forall (a : unit) (st' : State),
      delete_release fuel paths i 0 st <> Returns a st'.
Proof.
  induction fuel as [|fuel IH]; intros paths p i st Hp Hi a st';
    cbn [delete_release];
    replace (0 <? i) with true by (symmetry; apply Z.ltb_lt; lia).
  - discriminate.
  - change (Z.to_nat 0) with 0%nat. rewrite Hp.
    unfold bind at 1, free, free_addr.
    destruct (i =? INT_MAX); [discriminate|].
    apply (IH paths p (i + 1)); [exact Hp | lia].
Qed.

Lemma accounted_value (U : Prop) (argv : list Expr) (st st' : State)
  (v : cstr) :
  errors st' = errors st -> accounted U argv st st' (Some v).
Proof. intros H. exact H. Qed.

Lemma accounted_message (U : Prop) (argv : list Expr) (st st' : State)
  (msg : cstr) :
  errors st' = msg :: errors st -> accounted U argv st st' None.
Proof. intros H. left. exists msg. exact H. Qed.

Lemma accounted_failure (U : Prop) (argv : list Expr) (st st' : State) :
  errors st' = errors st -> In fails argv -> accounted U argv st st' None.
Proof. intros H1 H2. right. left. split; assumption. Qed.

(** Close a leaf of a run: the outcome is known, say which case of
    [accounted] it is. *)
Ltac leaf :=
  let H := fresh "H" in
  intros H; inversion H; subst; clear H;
  first
    [ apply accounted_value; reflexivity
    | eapply accounted_message; reflexivity
    | apply accounted_failure; [reflexivity | simpl; tauto] ].

Lemma MountFn_accounted :
  forall (name : string) (cookie : UpdaterInfo) (argv : list Expr)
         (st : State) (r : char_p) (st' : State),
    MountFn name cookie argv st = Returns r st' ->
    accounted False argv st st' r.
Proof.
  intros name cookie argv st r st'. unfold MountFn.
  destruct (argc_of argv =? 3) eqn:Ha; cbn [negb]; [|cbn; leaf].
  apply Z.eqb_eq in Ha. unfold argc_of in Ha.
  destruct argv as [|e1 [|e2 [|e3 [|? ?]]]]; simpl in Ha; try lia.
  destruct e1, e2, e3; run; leaf.
Qed.

Lemma UnmountFn_accounted :
  forall (name : string) (cookie : UpdaterInfo) (argv : list Expr)
         (st : State) (r : char_p) (st' : State),
    UnmountFn name cookie argv st = Returns r st' ->
    accounted False argv st st' r.
Proof.
  intros name cookie argv st r st'. unfold UnmountFn.
  destruct (argc_of argv =? 1) eqn:Ha; cbn [negb]; [|cbn; leaf].
  apply Z.eqb_eq in Ha. unfold argc_of in Ha.
  destruct argv as [|e1 [|? ?]]; simpl in Ha; try lia.
  destruct e1; run; leaf.
Qed.

Lemma ShowProgressFn_accounted :
  forall (name : string) (cookie : UpdaterInfo) (argv : list Expr)
         (st : State) (r : char_p) (st' : State),
    ShowProgressFn name cookie argv st = Returns r st' ->
    accounted False argv st st' r.
Proof.
  intros name cookie argv st r st'. unfold ShowProgressFn.
  destruct (argc_of argv =? 2) eqn:Ha; cbn [negb]; [|cbn; leaf].
  apply Z.eqb_eq in Ha. unfold argc_of in Ha.
  destruct argv as [|e1 [|e2 [|? ?]]]; simpl in Ha; try lia.
  destruct e1, e2; run; leaf.
Qed.

Lemma PackageExtractFn_accounted :
  forall (name : string) (cookie : UpdaterInfo) (argv : list Expr)
         (st : State) (r : char_p) (st' : State),
    PackageExtractFn name cookie argv st = Returns r st' ->
    accounted False argv st st' r.
Proof.
  intros name cookie argv st r st'. unfold PackageExtractFn.
  destruct (argc_of argv =? 2) eqn:Ha; cbn [negb]; [|cbn; leaf].
  apply Z.eqb_eq in Ha. unfold argc_of in Ha.
  destruct argv as [|e1 [|e2 [|? ?]]]; simpl in Ha; try lia.
  destruct e1, e2; run; leaf.
Qed.

(** format is the one builtin with a NULL that nothing accounts for:
    the unsupported type. *)
Lemma FormatFn_accounted :
  forall (name : string) (cookie : UpdaterInfo) (argv : list Expr)
         (st : State) (r : char_p) (st' : State),
    FormatFn name cookie argv st = Returns r st' ->
    accounted
      (exists type location : string,
          argv = [yields type; yields location] /\
          String.eqb type "MTD" = false)
      argv st st' r.
Proof.
  intros name cookie argv st r st'. unfold FormatFn.
  destruct (argc_of argv =? 2) eqn:Ha; cbn [negb]; [|cbn; leaf].
  apply Z.eqb_eq in Ha. unfold argc_of in Ha.
  destruct argv as [|e1 [|e2 [|? ?]]]; simpl in Ha; try lia.
  destruct e1 as [type|], e2 as [location|]; run; try leaf.
  intros H; inversion H; subst; clear H.
  right. right. split; [reflexivity|].
  exists type, location. split; [reflexivity|assumption].
Qed.

Lemma ReadVarArgs_fails (ss : list string) (rest : list Expr) (st : State) :
  ReadVarArgs (argc_of (map yields ss ++ fails :: rest)%list)
    (map yields ss ++ fails :: rest)%list st =
  Returns None
    (mk_State (world st) (List.length ss + S (brk st))
       (brk st :: rev (seq (S (brk st)) (List.length ss)) ++ freed st)%list
       (errors st) (stderr st) (calls st)).
Proof.
  unfold ReadVarArgs, argc_of. rewrite Nat2Z.id, firstn_all.
  unfold bind at 1. cbn -[eval_nodes].
  unfold bind at 1. rewrite eval_nodes_fails. cbn.
  rewrite addr_place. reflexivity.
Qed.

Lemma SymlinkFn_accounted :
  forall (name : string) (cookie : UpdaterInfo) (argv : list Expr)
         (st : State) (r : char_p) (st' : State),
    SymlinkFn name cookie argv st = Returns r st' ->
    accounted False argv st st' r.
Proof.
  intros name cookie argv st r st'. unfold SymlinkFn.
  destruct argv as [|e argv1]; [cbn; leaf|].
  destruct e as [target|]; [|cbn; leaf].
  unfold bind at 1. cbn -[ReadVarArgs argc_of]. unfold bind at 1.
  replace (argc_of (yields target :: argv1) - 1) with (argc_of argv1)
    by (unfold argc_of; cbn [List.length]; lia).
  destruct (nodes_split argv1) as [[ss ->] | (ss & rest & ->)].
  - rewrite ReadVarArgs_yields. cbn -[symlink_each].
    unfold bind at 1. rewrite symlink_each_log. cbn -[drive]. leaf.
  - rewrite ReadVarArgs_fails. cbn.
    intros H; inversion H; subst; clear H.
    apply accounted_failure; [reflexivity|].
    right. apply in_or_app. right. left. reflexivity.
Qed.

Lemma SetPermFn_accounted :
  forall (name : string) (cookie : UpdaterInfo) (argv : list Expr)
         (st : State) (r : char_p) (st' : State),
    SetPermFn name cookie argv st = Returns r st' ->
    accounted False argv st st' r.
Proof.
  intros name cookie argv st r st'. unfold SetPermFn.
  destruct (argc_of argv <? _) eqn:Ha; [cbn; discriminate|].
  apply Z.ltb_ge in Ha.
  destruct (nodes_split argv) as [[ss ->] | (ss & rest & ->)].
  - unfold bind at 1. rewrite ReadVarArgs_yields.
    unfold argc_of in Ha. rewrite length_map in Ha.
    destruct ss as [|a0 [|a1 [|a2 [|a3 others]]]];
      try (exfalso; destruct (String.eqb name "set_perm_recursive");
           simpl in Ha; lia).
    destruct (String.eqb name "set_perm_recursive").
    all: cbn -[free_all chown_chmod_each set_hierarchy_each].
    all: repeat match goal with
           | |- context [not_a_number ?a] =>
               destruct (not_a_number a);
               cbn -[free_all chown_chmod_each set_hierarchy_each]
           end.
    all: unfold bind;
      cbn -[free_all chown_chmod_each set_hierarchy_each drive];
      try rewrite chown_chmod_each_log; try rewrite set_hierarchy_each_log;
      cbn -[free_all drive]; rewrite free_all_log; cbn -[drive]; leaf.
  - unfold bind at 1. rewrite ReadVarArgs_fails. cbn.
    intros H; inversion H; subst; clear H.
    apply accounted_failure; [reflexivity|].
    apply in_or_app. right. left. reflexivity.
Qed.

Lemma delete_release_nothing (fuel : nat) (paths : list cstr) (st : State) :
  delete_release fuel paths 0 0 st = Returns tt st.
Proof. destruct fuel; reflexivity. Qed.

Lemma DeleteFn_accounted :
  forall (fuel : nat) (name : string) (cookie : UpdaterInfo)
         (argv : list Expr) (st : State) (r : char_p) (st' : State),
    DeleteFn fuel name cookie argv st = Returns r st' ->
    accounted False argv st st' r.
Proof.
  intros fuel name cookie argv st r st'. unfold DeleteFn.
  unfold bind at 1. cbn [malloc]. unfold bind at 1.
  destruct (nodes_split argv) as [[ss ->] | (ss & rest & ->)].
  - rewrite delete_evaluate_yields. cbn -[delete_paths].
    unfold bind at 1. rewrite delete_paths_log. cbn -[drive].
    unfold bind, sprintf_d.
    match goal with
    | |- context [if ?c then _ else _] => destruct c
    end; cbn -[drive]; [leaf | discriminate].
  - rewrite delete_evaluate_fails.
    cbn [app brk world freed errors stderr calls].
    destruct ss as [|s ss].
    + unfold bind at 1. cbn [place app List.length Z.of_nat].
      rewrite delete_release_nothing. cbn.
      intros H; inversion H; subst; clear H.
      apply accounted_failure; [reflexivity | left; reflexivity].
    + unfold bind at 1.
      destruct (delete_release fuel _ _ 0 _) as [a s0|why s0|s0] eqn:E;
        [|discriminate|discriminate].
      exfalso. revert E.
      apply (delete_release_no_return fuel _ (mk_cstr (S (brk st)) s));
        [reflexivity|].
      cbn [place List.length]. lia.
Qed.

(** X11. Every builtin of the table, on every argument list and state:
    when it returns a value no error was set, so a builtin that called
    ErrorAbort returns NULL; when it returns NULL either ErrorAbort set
    a message, or an argument failed to evaluate (the slot is left to
    the evaluator), or the builtin is format and the type is not
    "MTD". *)
Lemma abort_signal_accounting :
  forall (fuel : nat) (name : string) (f : Function_),
    In (name, f) (RegisterInstallFunctions fuel) ->
    forall (cookie : UpdaterInfo) (argv : list Expr) (st : State)
           (r : char_p) (st' : State),
      f name cookie argv st = Returns r st' ->
      accounted
        (name = "format" /\
         exists type location : string,
           argv = [yields type; yields location] /\
           String.eqb type "MTD" = false)
        argv st st' r.
Proof.
  intros fuel name f Hin cookie argv st r st' Hrun.
  assert (Hweak : forall U : Prop,
             accounted False argv st st' r -> accounted U argv st st' r).
  { intros U H. unfold accounted in *. destruct r; [exact H|].
    destruct H as [H | [H | [_ []]]]; auto. }
  simpl in Hin.
  repeat (destruct Hin as [Hin | Hin];
          [injection Hin as <- <-|]); try contradiction.
  - apply Hweak. exact (MountFn_accounted _ _ _ _ _ _ Hrun).
  - apply Hweak. exact (UnmountFn_accounted _ _ _ _ _ _ Hrun).
  - pose proof (FormatFn_accounted _ _ _ _ _ _ Hrun) as H.
    unfold accounted in *. destruct r; [exact H|].
    destruct H as [H | [H | [H1 H2]]]; auto.
  - apply Hweak. exact (ShowProgressFn_accounted _ _ _ _ _ _ Hrun).
  - apply Hweak. exact (DeleteFn_accounted _ _ _ _ _ _ _ Hrun).
  - apply Hweak. exact (DeleteFn_accounted _ _ _ _ _ _ _ Hrun).
  - apply Hweak. exact (PackageExtractFn_accounted _ _ _ _ _ _ Hrun).
  - apply Hweak. exact (SymlinkFn_accounted _ _ _ _ _ _ Hrun).
  - apply Hweak. exact (SetPermFn_accounted _ _ _ _ _ _ Hrun).
  - apply Hweak. exact (SetPermFn_accounted _ _ _ _ _ _ Hrun).
Qed.

(** *** Further properties of the builtins *)

(** X1. mount, unmount, format, show_progress, package_extract and
    symlink, called with a number of arguments their arity test
    refuses, return NULL after one ErrorAbort whose message is
    "<name>() expects <count wanted>, got <argc>"; the message buffer
    is the only block allocated, nothing is freed, no argument is
    evaluated and no driver is called. *)
Theorem arity_violation_aborts :
  forall (f : Function_) (accepts : Z -> bool) (wants : string),
    In (f, (accepts, wants)) arity_checked ->
    forall (name : string) (cookie : UpdaterInfo) (argv : list Expr)
           (st : State),
      accepts (argc_of argv) = false ->
      f name cookie argv st =
      Returns None
        (mk_State (world st) (S (brk st)) (freed st)
           (mk_cstr (brk st)
              (truncate 4096
                 (name ++ "() expects " ++ wants ++ ", got "
                  ++ itoa (argc_of argv)))
              :: errors st)
           (stderr st) (calls st)).
Proof.
  intros f accepts wants Hf name cookie argv st Hno.
  simpl in Hf.
  destruct Hf as [Hf | [Hf | [Hf | [Hf | [Hf | [Hf | []]]]]]];
    injection Hf as <- <- <-.
  1-5: rewrite Z.eqb_sym in Hno;
    unfold MountFn, UnmountFn, FormatFn, ShowProgressFn, PackageExtractFn;
    rewrite Hno; cbn; rewrite append_empty_r; reflexivity.
  apply negb_false_iff, Z.eqb_eq in Hno. unfold argc_of in Hno.
  destruct argv as [|e argv]; [|simpl in Hno; lia].
  cbn. rewrite append_empty_r. reflexivity.
Qed.

(** X2. unmount of a non-empty mount point: the mounted volumes are
    scanned and the volume is looked up. When none is found the value
    is a fresh empty text and the argument is freed; when one is found
    it is unmounted and the value is the argument itself, which is not
    freed. No error is set either way, and what unmounting returns is
    not looked at. *)
Theorem unmount_result_ownership :
  forall (name : string) (cookie : UpdaterInfo) (mount_point : string)
         (st : State),
    mount_point <> EmptyString ->
    exists (vol rc : Z) (st' : State),
      vol = fst (exec (c_find_mounted_volume_by_mount_point mount_point)
                   (snd (exec c_scan_mounted_volumes (world st)))) /\
      errors st' = errors st /\
      if vol =? 0
      then UnmountFn name cookie [yields mount_point] st =
           Returns (Some (mk_cstr (S (brk st)) EmptyString)) st' /\
           freed st' = brk st :: freed st /\
           map fst (calls st') =
             (c_find_mounted_volume_by_mount_point mount_point
              :: c_scan_mounted_volumes :: map fst (calls st))
      else UnmountFn name cookie [yields mount_point] st =
           Returns (Some (mk_cstr (brk st) mount_point)) st' /\
           freed st' = freed st /\
           calls st' =
             ((c_unmount_mounted_volume vol, rc)
              :: (c_find_mounted_volume_by_mount_point mount_point, vol)
              :: (c_scan_mounted_volumes,
                  fst (exec c_scan_mounted_volumes (world st)))
              :: calls st).
Proof.
  intros name cookie mount_point st Hm.
  destruct mount_point as [|c m]; [contradiction|].
  destruct (fst (exec (c_find_mounted_volume_by_mount_point (String c m))
                   (snd (exec c_scan_mounted_volumes (world st)))) =? 0)
    eqn:E.
  - exists (fst (exec (c_find_mounted_volume_by_mount_point (String c m))
                   (snd (exec c_scan_mounted_volumes (world st))))), 0.
    eexists. split; [reflexivity|]. rewrite E. split; cycle 1.
    + unfold UnmountFn. cbn. rewrite E. cbn.
      rewrite ptr_eqb_apart by lia. cbn.
      split; [reflexivity|]. split; reflexivity.
    + reflexivity.
  - do 3 eexists. split; [reflexivity|]. rewrite E. split; cycle 1.
    + unfold UnmountFn. cbn. rewrite E. cbn.
      rewrite ptr_eqb_same. cbn.
      split; [reflexivity|]. split; reflexivity.
    + reflexivity.
Qed.

(** The part of a list in front of a known tail. *)
Ltac prefix_of l tl :=
  lazymatch l with
  | tl => lazymatch type of l with list ?T => constr:(@nil T) end
  | ?x :: ?l' => let p := prefix_of l' tl in constr:(x :: p)
  end.

Ltac give_prefix :=
  cbn;
  lazymatch goal with
  | |- ?l = (?p ++ ?tl)%list =>
      let pre := prefix_of l tl in unify p pre; reflexivity
  end.

Ltac use_tests :=
  repeat match goal with
    | E : _ = true |- _ => rewrite E; clear E
    | E : _ = false |- _ => rewrite E; clear E
    end.

(** X3. format of a raw-flash partition, given "MTD" and a non-empty
    location, in terms of what the drivers answer. The partitions are
    scanned and the location is looked up by name; if it is found, a
    write context is opened on it; if that is not NULL, all its blocks
    are erased (-1) and the context is closed, also after a failed
    erase. A value is always returned and no error is set. The value
    is the location argument itself, not freed, exactly when the
    lookup and the open did not return NULL, the erase did not return
    -1 and the close returned 0; in every other case it is a fresh
    empty text and the location is freed. The type is freed either
    way. No other driver is called, the world is the one the last
    call left, and every write context that was opened has been closed
    when the builtin returns. *)
Theorem format_mtd_protocol :
  forall (name : string) (cookie : UpdaterInfo) (location : string)
         (st : State),
    location <> EmptyString ->
    let scanned := exec c_mtd_scan_partitions (world st) in
    let found := exec (c_mtd_find_partition_by_name location) (snd scanned) in
    let context := exec (c_mtd_write_partition (fst found)) (snd found) in
    let erased := exec (c_mtd_erase_blocks (fst context) (-1)) (snd context) in
    let shut := exec (c_mtd_write_close (fst context)) (snd erased) in
    let formatted :=
      negb (fst found =? 0) && negb (fst context =? 0)
      && negb (fst erased =? -1) && (fst shut =? 0) in
    let new :=
      ((if fst found =? 0 then []
        else (if fst context =? 0 then []
              else [(c_mtd_write_close (fst context), fst shut);
                    (c_mtd_erase_blocks (fst context) (-1), fst erased)])
             ++ [(c_mtd_write_partition (fst found), fst context)])
       ++ [(c_mtd_find_partition_by_name location, fst found);
           (c_mtd_scan_partitions, fst scanned)])%list in
    exists st' : State,
      FormatFn name cookie [yields "MTD"; yields location] st =
      Returns (Some (if formatted then mk_cstr (S (brk st)) location
                     else mk_cstr (2 + brk st) EmptyString)) st' /\
      calls st' = (new ++ calls st)%list /\
      world st' = (if fst found =? 0 then snd found
                   else if fst context =? 0 then snd context
                   else snd shut) /\
      errors st' = errors st /\
      brk st' = ((if formatted then 2 else 3) + brk st)%nat /\
      freed st' = ((if formatted then [brk st] else [S (brk st); brk st])
                   ++ freed st)%nat%list /\
      opened new = closed new.
Proof.
  intros name cookie location st Hl.
  cbv zeta.
  destruct location as [|c l]; [contradiction|].
  unfold FormatFn. run.
  all: try congruence.
  all: eexists; (split; [reflexivity|]); cbn; use_tests; repeat split.
Qed.

(** X4. show_progress with two arguments that evaluate never fails,
    whatever the two texts are: it writes the one line
    "progress <fraction> <seconds>" and a newline to the command pipe
    of the cookie, with the seconds as strtol reads them in base 10,
    frees both arguments and returns
    a fresh empty text. What the write returns is not looked at, and
    no error is set. *)
Theorem show_progress_always_succeeds :
  forall (name : string) (cookie : UpdaterInfo) (frac sec : string)
         (st : State),
    exists (rc : Z) (st' : State),
      ShowProgressFn name cookie [yields frac; yields sec] st =
      Returns (Some (mk_cstr (2 + brk st) EmptyString)) st' /\
      calls st' =
        (c_fprintf (cmd_pipe cookie)
           ("progress " ++ show_double frac ++ " "
            ++ itoa (to_int (strtol sec 10)) ++ nl), rc) :: calls st /\
      freed st' = S (brk st) :: brk st :: freed st /\
      errors st' = errors st /\
      brk st' = (3 + brk st)%nat.
Proof.
  intros name cookie frac sec st.
  do 2 eexists. split.
  - unfold ShowProgressFn. cbn. reflexivity.
  - cbn. repeat split.
Qed.

(** X5. The driver calls of mount, given three non-empty arguments,
    in the order made. The mount point is created first, with mode
    0755, whatever follows. For the type "MTD" the partitions are
    scanned and the location is looked up by name; only when it is
    found is it mounted, as yaffs2 and read-write, and the generic
    mount is never called. For any other type the one call after
    mkdir is the generic mount of the location as that type, with the
    flags MS_NOATIME, MS_NODEV and MS_NODIRATIME and empty data. *)
Theorem mount_driver_protocol :
  forall (name : string) (cookie : UpdaterInfo)
         (type location mount_point : string) (st : State),
    type <> EmptyString ->
    location <> EmptyString ->
    mount_point <> EmptyString ->
    exists (new : list (Call * Z)) (r : char_p) (st' : State),
      MountFn name cookie [yields type; yields location; yields mount_point] st
      = Returns r st' /\
      calls st' = (new ++ calls st)%list /\
      if String.eqb type "MTD"
      then exists mtd : Z,
             In (c_mtd_find_partition_by_name location, mtd) new /\
             rev (map fst new) =
               ([c_mkdir mount_point 493; c_mtd_scan_partitions;
                 c_mtd_find_partition_by_name location]
                ++ (if mtd =? 0 then []
                    else [c_mtd_mount_partition mtd mount_point "yaffs2" 0]))%list
      else rev (map fst new) =
             [c_mkdir mount_point 493;
              c_mount location mount_point type
                (Z.lor (Z.lor MS_NOATIME MS_NODEV) MS_NODIRATIME)
                EmptyString].
Proof.
  intros name cookie type location mount_point st Ht Hl Hm.
  destruct type as [|c0 t]; [contradiction|].
  destruct location as [|c1 l]; [contradiction|].
  destruct mount_point as [|c2 m]; [contradiction|].
  unfold MountFn. run.
  all: do 3 eexists; (split; [reflexivity|]); (split; [give_prefix|]).
  all: cbn; try reflexivity.
  all: eexists; split; [cbn; auto|]; cbn; use_tests; reflexivity.
Qed.

(** *** Arguments are evaluated before anything is done *)

Lemma yields_never_fails (ss : list string) : ~ In fails (map yields ss).
Proof.
  induction ss as [|s ss IH]; simpl; [tauto|].
  intros [H | H]; [discriminate H | exact (IH H)].
Qed.

Lemma delete_release_quiet (fuel : nat) :
  forall (paths : list cstr) (i j : Z) (st : State),
    quiet st (delete_release fuel paths i j st).
Proof.
  induction fuel as [|fuel IH]; intros paths i j st; cbn [delete_release];
    destruct (j <? i); try (split; reflexivity).
  unfold bind at 1.
  destruct (nth_error paths (Z.to_nat j)) as [p|]; [|split; reflexivity].
  unfold free, free_addr.
  destruct (i =? INT_MAX); [split; reflexivity|].
  apply (IH paths (i + 1) j
           (mk_State (world st) (brk st) (addr p :: freed st) (errors st)
              (stderr st) (calls st))).
Qed.

Ltac quiet_fixed Hin :=
  cbn [negb];
  first
    [ cbn; split; reflexivity
    | exfalso; simpl in Hin; intuition discriminate ].

Lemma fixed_arity_quiet :
  forall (f : Function_) (n : Z) (wants : string),
    In (f, (n, wants)) fixed_arity ->
    forall (name : string) (cookie : UpdaterInfo) (argv : list Expr)
           (st : State),
      In fails argv ->
      quiet st (f name cookie argv st).
Proof.
  intros f n wants Hf name cookie argv st Hin.
  simpl in Hf.
  destruct Hf as [Hf | [Hf | [Hf | [Hf | [Hf | []]]]]];
    injection Hf as <- <- <-.
  all: unfold MountFn, UnmountFn, FormatFn, ShowProgressFn, PackageExtractFn.
  all: match goal with
       | |- context [argc_of ?v =? ?k] =>
           destruct (argc_of v =? k) eqn:Ha; [|quiet_fixed Hin]
       end.
  all: apply Z.eqb_eq in Ha; unfold argc_of in Ha.
  all: destruct argv as [|e1 [|e2 [|e3 [|? ?]]]]; simpl in Ha; try lia.
  all: repeat match goal with
         | e : Expr |- _ => destruct e
         end; quiet_fixed Hin.
Qed.

Lemma SymlinkFn_quiet :
  forall (name : string) (cookie : UpdaterInfo) (argv : list Expr)
         (st : State),
    In fails argv ->
    quiet st (SymlinkFn name cookie argv st).
Proof.
  intros name cookie argv st Hin. unfold SymlinkFn.
  destruct argv as [|e argv1]; [contradiction|].
  destruct e as [target|]; [|cbn; split; reflexivity].
  destruct Hin as [Hin | Hin]; [discriminate Hin|].
  unfold bind at 1. cbn -[ReadVarArgs argc_of]. unfold bind at 1.
  replace (argc_of (yields target :: argv1) - 1) with (argc_of argv1)
    by (unfold argc_of; cbn [List.length]; lia).
  destruct (nodes_split argv1) as [[ss ->] | (ss & rest & ->)].
  - exfalso. exact (yields_never_fails ss Hin).
  - rewrite ReadVarArgs_fails. cbn. split; reflexivity.
Qed.

Lemma SetPermFn_quiet :
  forall (name : string) (cookie : UpdaterInfo) (argv : list Expr)
         (st : State),
    In fails argv ->
    quiet st (SetPermFn name cookie argv st).
Proof.
  intros name cookie argv st Hin. unfold SetPermFn.
  destruct (argc_of argv <? _); [cbn; split; reflexivity|].
  destruct (nodes_split argv) as [[ss ->] | (ss & rest & ->)].
  - exfalso. exact (yields_never_fails ss Hin).
  - unfold bind at 1. rewrite ReadVarArgs_fails. cbn. split; reflexivity.
Qed.

Lemma DeleteFn_quiet :
  forall (fuel : nat) (name : string) (cookie : UpdaterInfo)
         (argv : list Expr) (st : State),
    In fails argv ->
    quiet st (DeleteFn fuel name cookie argv st).
Proof.
  intros fuel name cookie argv st Hin. unfold DeleteFn.
  unfold bind at 1. cbn [malloc]. unfold bind at 1.
  destruct (nodes_split argv) as [[ss ->] | (ss & rest & ->)].
  - exfalso. exact (yields_never_fails ss Hin).
  - rewrite delete_evaluate_fails.
    cbn [app brk world freed errors stderr calls]. unfold bind at 1.
    match goal with
    | |- context [delete_release ?f ?ps ?i ?j ?s] =>
        pose proof (delete_release_quiet f ps i j s) as Hq;
        destruct (delete_release f ps i j s) as [a s0|why s0|s0]
    end; unfold quiet in *; cbn in Hq |- *; exact Hq.
Qed.

(** X6. Every builtin of the table, called with an argument list in
    which some argument fails to evaluate: however the call ends, no
    driver was called and the world is as it was. Nothing is mounted,
    formatted, extracted, removed, linked or changed in mode unless
    every argument evaluated. *)
Theorem failed_argument_no_effect :
  forall (fuel : nat) (name : string) (f : Function_),
    In (name, f) (RegisterInstallFunctions fuel) ->
    forall (cookie : UpdaterInfo) (argv : list Expr) (st : State),
      In fails argv ->
      calls (state_of (f name cookie argv st)) = calls st /\
      world (state_of (f name cookie argv st)) = world st.
Proof.
  intros fuel name f Hin cookie argv st Hfails.
  simpl in Hin.
  repeat (destruct Hin as [Hin | Hin];
          [injection Hin as <- <-|]); try contradiction.
  - apply (fixed_arity_quiet MountFn 3 "3 args"); simpl; auto.
  - apply (fixed_arity_quiet UnmountFn 1 "1 arg"); simpl; auto.
  - apply (fixed_arity_quiet FormatFn 2 "2 args"); simpl; auto.
  - apply (fixed_arity_quiet ShowProgressFn 2 "2 args"); simpl; auto 6.
  - apply DeleteFn_quiet; assumption.
  - apply DeleteFn_quiet; assumption.
  - apply (fixed_arity_quiet PackageExtractFn 2 "2 args"); simpl; auto 7.
  - apply SymlinkFn_quiet; assumption.
  - apply SetPermFn_quiet; assumption.
  - apply SetPermFn_quiet; assumption.
Qed.

(** *** Memory *)

(** Settle [balanced] at the end of a run whose lists are explicit. *)
Ltac balance :=
  unfold balanced; cbn;
  lazymatch goal with
  | |- exists F E, ?l = (_ ++ ?tl)%list /\ ?m = (_ ++ ?tm)%list /\ _ =>
      let f := prefix_of l tl in
      let e := prefix_of m tm in
      exists f, e
  end;
  (split; [reflexivity|]); (split; [reflexivity|]); cbn;
  split; [repeat constructor; cbn; lia | intros a; lia].

Ltac balanced_leaf :=
  let H := fresh "H" in
  intros H; inversion H; subst; clear H; balance.

Lemma fixed_arity_balanced :
  forall (f : Function_) (n : Z) (wants : string),
    In (f, (n, wants)) fixed_arity ->
    forall (name : string) (cookie : UpdaterInfo) (argv : list Expr)
           (st : State) (r : char_p) (st' : State),
      f name cookie argv st = Returns r st' ->
      balanced st st' r.
Proof.
  intros f n wants Hf name cookie argv st r st'.
  simpl in Hf.
  destruct Hf as [Hf | [Hf | [Hf | [Hf | [Hf | []]]]]];
    injection Hf as <- <- <-.
  all: unfold MountFn, UnmountFn, FormatFn, ShowProgressFn, PackageExtractFn.
  all: match goal with
       | |- context [argc_of ?v =? ?k] =>
           destruct (argc_of v =? k) eqn:Ha; cbn [negb];
           [|cbn; balanced_leaf]
       end.
  all: apply Z.eqb_eq in Ha; unfold argc_of in Ha.
  all: destruct argv as [|e1 [|e2 [|e3 [|? ?]]]]; simpl in Ha; try lia.
  all: repeat match goal with
         | e : Expr |- _ => destruct e
         end; run; balanced_leaf.
Qed.

Lemma array_blocks (b n : nat) (extra : list nat) :
  extra = [] \/ extra = [S (n + b)] ->
  NoDup ((b :: rev (seq (S b) n)) ++ extra) /\
  forall a : nat,
    In a ((b :: rev (seq (S b) n)) ++ extra) <->
    (b <= a < S (n + b) + List.length extra)%nat.
Proof.
  intros Hextra. split.
  - apply NoDup_app.
    + constructor.
      * rewrite <- in_rev, in_seq. lia.
      * apply NoDup_rev, seq_NoDup.
    + destruct Hextra as [-> | ->]; repeat constructor. simpl. tauto.
    + intros a Ha Hx. simpl in Ha. rewrite <- in_rev, in_seq in Ha.
      destruct Hextra as [-> | ->]; simpl in Hx; lia.
  - intros a. rewrite in_app_iff. simpl. rewrite <- in_rev, in_seq.
    destruct Hextra as [-> | ->]; simpl; lia.
Qed.

(** A call that allocated an array, its [n] cells and at most one
    more block, freed the cells and the array, and handed the other
    block on. *)
Lemma balanced_array (st st' : State) (r : char_p) (n : nat)
  (E : list cstr) :
  freed st' = ((brk st :: rev (seq (S (brk st)) n)) ++ freed st)%list ->
  errors st' = (E ++ errors st)%list ->
  holds E r = [] \/ holds E r = [S (n + brk st)] ->
  brk st' = (S (n + brk st) + List.length (holds E r))%nat ->
  balanced st st' r.
Proof.
  intros Hf He Hh Hb.
  exists (brk st :: rev (seq (S (brk st)) n)), E.
  split; [exact Hf|]. split; [exact He|].
  rewrite Hb. apply array_blocks. exact Hh.
Qed.

Lemma DeleteFn_balanced :
  forall (fuel : nat) (name : string) (cookie : UpdaterInfo)
         (argv : list Expr) (st : State) (r : char_p) (st' : State),
    DeleteFn fuel name cookie argv st = Returns r st' ->
    balanced st st' r.
Proof.
  intros fuel name cookie argv st r st'. unfold DeleteFn.
  unfold bind at 1. cbn [malloc]. unfold bind at 1.
  destruct (nodes_split argv) as [[ss ->] | (ss & rest & ->)].
  - rewrite delete_evaluate_yields. cbn -[delete_paths].
    unfold bind at 1. rewrite delete_paths_log. cbn -[drive].
    unfold bind, sprintf_d.
    match goal with
    | |- context [if ?c then _ else _] => destruct c
    end; cbn -[drive]; [|discriminate].
    intros H; inversion H; subst; clear H.
    apply (balanced_array _ _ _ (List.length ss) []); cbn -[drive].
    + rewrite addr_place. reflexivity.
    + reflexivity.
    + right. rewrite <- plus_n_Sm. reflexivity.
    + lia.
  - rewrite delete_evaluate_fails.
    cbn [app brk world freed errors stderr calls].
    destruct ss as [|s ss].
    + unfold bind at 1. cbn [place app List.length Z.of_nat].
      rewrite delete_release_nothing. cbn. balanced_leaf.
    + unfold bind at 1.
      destruct (delete_release fuel _ _ 0 _) as [a s0|why s0|s0] eqn:E;
        [|discriminate|discriminate].
      exfalso. revert E.
      apply (delete_release_no_return fuel _ (mk_cstr (S (brk st)) s));
        [reflexivity|].
      cbn [place List.length]. lia.
Qed.

Lemma SetPermFn_balanced :
  forall (name : string) (cookie : UpdaterInfo) (argv : list Expr)
         (st : State) (r : char_p) (st' : State),
    SetPermFn name cookie argv st = Returns r st' ->
    balanced st st' r.
Proof.
  intros name cookie argv st r st'. unfold SetPermFn.
  destruct (argc_of argv <? _) eqn:Ha; [cbn; discriminate|].
  apply Z.ltb_ge in Ha.
  destruct (nodes_split argv) as [[ss ->] | (ss & rest & ->)].
  - unfold bind at 1. rewrite ReadVarArgs_yields.
    unfold argc_of in Ha. rewrite length_map in Ha.
    destruct ss as [|a0 [|a1 [|a2 [|a3 others]]]];
      try (exfalso; destruct (String.eqb name "set_perm_recursive");
           simpl in Ha; lia).
    destruct (String.eqb name "set_perm_recursive").
    all: cbn -[free_all chown_chmod_each set_hierarchy_each].
    all: repeat match goal with
           | |- context [not_a_number ?a] =>
               destruct (not_a_number a);
               cbn -[free_all chown_chmod_each set_hierarchy_each]
           end.
    all: unfold bind;
      cbn -[free_all chown_chmod_each set_hierarchy_each drive];
      try rewrite chown_chmod_each_log; try rewrite set_hierarchy_each_log;
      cbn -[free_all drive]; rewrite free_all_log; cbn -[drive].
    all: intros H; inversion H; subst; clear H.
    all: eapply (balanced_array _ _ _
                   (List.length (a0 :: a1 :: a2 :: a3 :: others)));
      [ cbn -[drive]; rewrite addr_place; cbn [List.length seq rev];
        rewrite <- ?app_assoc; reflexivity
      | give_prefix
      | right; cbn; rewrite <- ?plus_n_Sm; reflexivity
      | cbn; rewrite <- ?plus_n_Sm; lia ].
  - unfold bind at 1. rewrite ReadVarArgs_fails. cbn.
    intros H; inversion H; subst; clear H.
    apply (balanced_array _ _ _ (List.length ss) []); cbn.
    + reflexivity.
    + reflexivity.
    + left. reflexivity.
    + lia.
Qed.

(** X7. mount, unmount, format, show_progress, delete,
    delete_recursive, package_extract, set_perm and
    set_perm_recursive, on every argument list and from every state:
    whenever the builtin returns, the blocks allocated during the call
    are exactly the blocks it freed, the messages it gave to SetError
    and the value it returns, each once. So no block is freed twice,
    no block from before the call is freed, the value returned and
    the message set are not freed, and nothing allocated is left
    behind. *)
Theorem returning_builtins_balance_memory :
  forall (fuel : nat) (f : Function_),
    In f (leak_free fuel) ->
    forall (name : string) (cookie : UpdaterInfo) (argv : list Expr)
           (st : State) (r : char_p) (st' : State),
      f name cookie argv st = Returns r st' ->
      balanced st st' r.
Proof.
  intros fuel f Hin name cookie argv st r st' Hrun.
  simpl in Hin.
  repeat (destruct Hin as [Hin | Hin]; [subst f|]); try contradiction.
  - apply (fixed_arity_balanced MountFn 3 "3 args") with (1 := or_introl eq_refl)
      (2 := Hrun).
  - apply (fixed_arity_balanced UnmountFn 1 "1 arg") with (2 := Hrun).
    simpl; auto.
  - apply (fixed_arity_balanced FormatFn 2 "2 args") with (2 := Hrun).
    simpl; auto.
  - apply (fixed_arity_balanced ShowProgressFn 2 "2 args") with (2 := Hrun).
    simpl; auto 6.
  - exact (DeleteFn_balanced _ _ _ _ _ _ _ Hrun).
  - apply (fixed_arity_balanced PackageExtractFn 2 "2 args") with (2 := Hrun).
    simpl; auto 7.
  - exact (SetPermFn_balanced _ _ _ _ _ _ Hrun).
Qed.

(** X8. symlink accounts for its memory whenever it returns NULL: on
    the arity error, when the target fails to evaluate, and when a
    source fails, where the target is freed along with the sources
    evaluated before and the array. Only the return of a value leaves
    the target behind. *)
Theorem symlink_abort_balances_memory :
  forall (name : string) (cookie : UpdaterInfo) (argv : list Expr)
         (st st' : State),
    SymlinkFn name cookie argv st = Returns None st' ->
    balanced st st' None.
Proof.
  intros name cookie argv st st'. unfold SymlinkFn.
  destruct argv as [|e argv1]; [cbn; balanced_leaf|].
  destruct e as [target|]; [|cbn; balanced_leaf].
  unfold bind at 1. cbn -[ReadVarArgs argc_of]. unfold bind at 1.
  replace (argc_of (yields target :: argv1) - 1) with (argc_of argv1)
    by (unfold argc_of; cbn [List.length]; lia).
  destruct (nodes_split argv1) as [[ss ->] | (ss & rest & ->)].
  - rewrite ReadVarArgs_yields. cbn -[symlink_each].
    unfold bind at 1. rewrite symlink_each_log. cbn -[drive]. discriminate.
  - rewrite ReadVarArgs_fails. cbn.
    intros H; inversion H; subst; clear H.
    exists (brk st :: S (brk st) :: rev (seq (S (S (brk st))) (List.length ss))),
      [].
    split; [reflexivity|]. split; [reflexivity|]. cbn [holds map app brk].
    rewrite app_nil_r.
    destruct (array_blocks (S (brk st)) (List.length ss) [] (or_introl eq_refl))
      as [Hnd Hin].
    rewrite app_nil_r in Hnd. split.
    + constructor; [|exact Hnd].
      simpl. rewrite <- in_rev, in_seq. lia.
    + intros a. simpl In. rewrite <- in_rev, in_seq. lia.
Qed.

Lemma substring_0_length (n : nat) :
  forall s : string, (String.length (substring 0 n s) <= n)%nat.
Proof.
  induction n as [|n IH]; intros [|c s]; simpl; try lia.
  specialize (IH s). lia.
Qed.

Lemma substring_0_all (n : nat) :
  forall s : string, (String.length s <= n)%nat -> substring 0 n s = s.
Proof.
  induction n as [|n IH]; intros [|c s] H; simpl in *;
    try reflexivity; try lia.
  rewrite IH by lia. reflexivity.
Qed.

Lemma substring_0_prefix (n : nat) :
  forall s : string, prefix (substring 0 n s) s = true.
Proof.
  induction n as [|n IH]; intros [|c s]; simpl; try reflexivity.
  destruct (ascii_dec c c) as [_ | Hc]; [apply IH | contradiction Hc].
  reflexivity.
Qed.

(** X9. ErrorAbort, given a format and arguments that match it: it
    returns NULL and hands SetError one new buffer, the one block it
    allocates. The message is the formatted text cut to the 4095
    characters that fit the 4096-byte buffer: never longer, always the
    beginning of the text, and the whole text when that is short
    enough. Nothing is freed and no driver is called. *)
Theorem ErrorAbort_message_bounded :
  forall (fmt : string) (args : list fmt_arg) (whole : string) (st : State),
    format fmt args = Some whole ->
    exists msg : string,
      ErrorAbort fmt args st =
      Returns None
        (mk_State (world st) (S (brk st)) (freed st)
           (mk_cstr (brk st) msg :: errors st) (stderr st) (calls st)) /\
      (String.length msg <= 4095)%nat /\
      prefix msg whole = true /\
      ((String.length whole <= 4095)%nat -> msg = whole).
Proof.
  intros fmt args whole st Hfmt.
  exists (truncate 4096 whole). split; [|split; [|split]].
  - unfold ErrorAbort, vsnprintf. rewrite Hfmt. reflexivity.
  - apply substring_0_length.
  - apply substring_0_prefix.
  - apply substring_0_all.
Qed.

(** X10. format, given a non-empty type and location, touches only
    what the location names. For a type other than "MTD" no driver is
    called at all. Whenever blocks are erased, all blocks are asked
    for (-1), on a write context that is not NULL and was opened on
    the partition that the lookup of the location by name returned,
    itself not NULL. *)
Theorem format_erases_named_partition :
  forall (name : string) (cookie : UpdaterInfo) (type location : string)
         (st : State),
    type <> EmptyString ->
    location <> EmptyString ->
    exists (new : list (Call * Z)) (r : char_p) (st' : State),
      FormatFn name cookie [yields type; yields location] st = Returns r st' /\
      calls st' = (new ++ calls st)%list /\
      (String.eqb type "MTD" = false -> new = []) /\
      forall ctx blocks rc : Z,
        In (c_mtd_erase_blocks ctx blocks, rc) new ->
        blocks = -1 /\ ctx <> 0 /\
        exists mtd : Z,
          mtd <> 0 /\
          In (c_mtd_find_partition_by_name location, mtd) new /\
          In (c_mtd_write_partition mtd, ctx) new.
Proof.
  intros name cookie type location st Ht Hl.
  destruct type as [|c0 t]; [contradiction|].
  destruct location as [|c1 l]; [contradiction|].
  unfold FormatFn. run.
  all: do 3 eexists; (split; [reflexivity|]); (split; [give_prefix|]).
  all: split; [intros Hne; first [reflexivity | discriminate Hne]|].
  all: intros ctx blocks rc Hin; cbn in Hin.
  all: repeat (destruct Hin as [Hin | Hin]; try discriminate Hin);
    try contradiction.
  all: injection Hin as <- <- <-.
  all: repeat match goal with
         | E : (_ =? 0) = false |- _ => apply Z.eqb_neq in E
         end.
  all: split; [reflexivity|]; split; [assumption|].
  all: eexists; split; [|split; cbn; auto 8]; assumption.
Qed.

End Properties.














(** ** The theorems at concrete calls, on the small platform *)

(** mount("MTD", "", "/system"): the empty location aborts. *)
Lemma empty_argument_aborts_witness :
  In (MountFn, 3%nat) (refuse_empty (P := demo)) /\
  List.length ["MTD"; ""; "/system"] = 3%nat /\
  In EmptyString ["MTD"; ""; "/system"] /\
  exists msg : cstr,
    MountFn "mount" demo_cookie (map yields ["MTD"; ""; "/system"])
      (demo_state ["system"]) =
    Returns None
      (mk_State (P := demo) ["system"] 5 [3; 2; 1]%nat [msg] [] []).
Proof.
  split; [left; reflexivity|].
  split; [reflexivity|].
  split; [right; left; reflexivity|].
  exact (empty_argument_aborts (P := demo) MountFn 3 (or_introl eq_refl)
           "mount" demo_cookie ["MTD"; ""; "/system"] (demo_state ["system"])
           eq_refl (or_intror (or_introl eq_refl))).
Defined.

(** mount("MTD", "system", "/system") where the partition exists and
    mounts: the value is block 3, the mount point. *)
Lemma mount_result_ownership_witness :
  "MTD" <> EmptyString /\ "system" <> EmptyString /\
  "/system" <> EmptyString /\
  exists st' : State (P := demo),
    MountFn "mount" demo_cookie
      [yields "MTD"; yields "system"; yields "/system"]
      (demo_state ["system"])
    = Returns (Some (mk_cstr 3 "/system")) st' /\
    world st' = ["/system"; "system"] /\
    calls st' =
      [(c_mtd_mount_partition 1 "/system" "yaffs2" 0, 0);
       (c_mtd_find_partition_by_name "system", 1);
       (c_mtd_scan_partitions, 0); (c_mkdir "/system" 493, 0)] /\
    errors st' = [] /\
    brk st' = 4%nat /\
    freed st' = [2; 1]%nat.
Proof.
  assert (H1 : "MTD" <> EmptyString) by discriminate.
  assert (H2 : "system" <> EmptyString) by discriminate.
  assert (H3 : "/system" <> EmptyString) by discriminate.
  split; [exact H1|]. split; [exact H2|]. split; [exact H3|].
  exact (mount_result_ownership (P := demo) "mount" demo_cookie "MTD" "system"
           "/system" (demo_state ["system"]) H1 H2 H3).
Defined.

(** delete("/a", "/b", "/c") where "/b" does not exist: "2". *)
Lemma delete_returns_count_witness :
  Z.of_nat (List.length ["/a"; "/b"; "/c"]) < 10 ^ 9 /\
  exists (log : list (Call * Z)) (w' : World (Platform := demo)),
    drive (P := demo) (map (removal "delete") ["/a"; "/b"; "/c"]) ["/a"; "/c"]
    = (log, w') /\
    map fst log = map (removal "delete") ["/a"; "/b"; "/c"] /\
    DeleteFn 0 "delete" demo_cookie (map yields ["/a"; "/b"; "/c"])
      (demo_state ["/a"; "/c"]) =
    Returns (Some (mk_cstr 5 (itoa (removed log))))
      (mk_State (P := demo) w' 6 [1; 4; 3; 2]%nat [] [] (rev log ++ [])%list)
    /\ decimal_value (itoa (removed log)) 0 = Some (removed log)
    /\ itoa (removed log) <> EmptyString.
Proof.
  assert (H : Z.of_nat (List.length ["/a"; "/b"; "/c"]) < 10 ^ 9)
    by (vm_compute; reflexivity).
  split; [exact H|].
  exact (delete_returns_count (P := demo) 0 "delete" demo_cookie
           ["/a"; "/b"; "/c"] (demo_state ["/a"; "/c"]) H).
Defined.

(** set_perm("x", "0", "0644", "/a"): the uid does not parse. *)
Lemma set_perm_rejects_bad_number_witness :
  (List.length (numeric_labels "set_perm")
   < List.length ["x"; "0"; "0644"; "/a"])%nat /\
  existsb (not_a_number (P := demo))
    (firstn (List.length (numeric_labels "set_perm"))
       ["x"; "0"; "0644"; "/a"]) = true /\
  exists what token : string,
    first_bad (P := demo) (numeric_labels "set_perm") ["x"; "0"; "0644"; "/a"]
    = Some (what, token) /\
    In token (firstn (List.length (numeric_labels "set_perm"))
                ["x"; "0"; "0644"; "/a"]) /\
    not_a_number (P := demo) token = true /\
    SetPermFn "set_perm" demo_cookie (map yields ["x"; "0"; "0644"; "/a"])
      (demo_state ["/a"]) =
    Returns None
      (mk_State (P := demo) ["/a"] 7 [1; 5; 4; 3; 2]%nat
         [mk_cstr 6
            (truncate 4096
               ("set_perm" ++ ": " ++ dq ++ token ++ dq ++ " not a valid "
                ++ what))]
         [] []).
Proof.
  assert (H1 : (List.length (numeric_labels "set_perm")
                < List.length ["x"; "0"; "0644"; "/a"])%nat)
    by (vm_compute; lia).
  assert (H2 : existsb (not_a_number (P := demo))
                 (firstn (List.length (numeric_labels "set_perm"))
                    ["x"; "0"; "0644"; "/a"]) = true)
    by reflexivity.
  split; [exact H1|]. split; [exact H2|].
  exact (set_perm_rejects_bad_number (P := demo) "set_perm" demo_cookie
           ["x"; "0"; "0644"; "/a"] (demo_state ["/a"]) H1 H2).
Defined.

(** ** Runs on the small platform *)

(** What [SetPermFn] accepts as a number and what it does not. *)
Example not_a_number_cases :
  map (not_a_number (P := demo))
    ["0"; "0644"; "0x1f"; " 12"; "-1"; ""; "x"; "12ab"; "0x"; " "]
  = [false; false; false; false; false; true; true; true; true; true].
Proof. reflexivity. Qed.

Example parsed_cases :
  map (parsed (P := demo)) ["0"; "0644"; "0x1f"; "1000"; "-1"]
  = [0; 420; 31; 1000; -1].
Proof. reflexivity. Qed.

Example itoa_cases :
  map itoa [0; 2; 10; 1217592000; -45]
  = ["0"; "2"; "10"; "1217592000"; "-45"].
Proof. reflexivity. Qed.

(** delete with no argument: the count is "0". *)
Example delete_nothing :
  DeleteFn 0 "delete" demo_cookie [] (demo_state ["/a"]) =
  Returns (Some (mk_cstr 2 "0"))
    (mk_State (P := demo) ["/a"] 3 [1]%nat [] [] []).
Proof. reflexivity. Qed.

(** delete_recursive("/a", "/b", "/c") where "/b" does not exist. *)
Example delete_recursive_three :
  DeleteFn 0 "delete_recursive" demo_cookie
    [yields "/a"; yields "/b"; yields "/c"] (demo_state ["/a"; "/c"]) =
  Returns (Some (mk_cstr 5 "2"))
    (mk_State (P := demo) [] 6 [1; 4; 3; 2]%nat [] []
       [(c_dirUnlinkHierarchy "/c", 0); (c_dirUnlinkHierarchy "/b", -1);
        (c_dirUnlinkHierarchy "/a", 0)]).
Proof. reflexivity. Qed.

(** delete("/a", e) with [e] failing, the release loop given three
    turns: block 2, the path "/a", is freed three times and the loop
    is still running. *)
Example delete_release_three_turns :
  DeleteFn 3 "delete" demo_cookie [yields "/a"; fails] (demo_state ["/a"]) =
  OutOfFuel (mk_State (P := demo) ["/a"] 3 [2; 2; 2]%nat [] [] []).
Proof. reflexivity. Qed.

(** A failure of the first argument leaves nothing to release. *)
Example delete_first_fails :
  DeleteFn 0 "delete" demo_cookie [fails; yields "/a"] (demo_state ["/a"]) =
  Returns None (mk_State (P := demo) ["/a"] 2 [1]%nat [] [] []).
Proof. reflexivity. Qed.

(** mount("MTD", "nonexistent", "/mnt/x"): the directory is made, the
    partition is not found, the value is a fresh empty text. *)
Example mount_missing_partition :
  MountFn "mount" demo_cookie
    [yields "MTD"; yields "nonexistent"; yields "/mnt/x"]
    (demo_state ["system"]) =
  Returns (Some (mk_cstr 4 EmptyString))
    (mk_State (P := demo) ["system"] 5 [3; 2; 1]%nat []
       [("mount: no mtd partition named " ++ dq ++ "nonexistent" ++ dq)%string]
       [(c_mtd_find_partition_by_name "nonexistent", 0);
        (c_mtd_scan_partitions, 0); (c_mkdir "/mnt/x" 493, 0)]).
Proof. reflexivity. Qed.

(** format("MTD", "boot") on a partition that opens, erases and
    closes: the value is the location argument itself. *)
Example format_boot :
  FormatFn "format" demo_cookie [yields "MTD"; yields "boot"]
    (demo_state ["boot"]) =
  Returns (Some (mk_cstr 2 "boot"))
    (mk_State (P := demo) ["boot"] 3 [1]%nat [] []
       [(c_mtd_write_close 1, 0); (c_mtd_erase_blocks 1 (-1), 0);
        (c_mtd_write_partition 1, 1);
        (c_mtd_find_partition_by_name "boot", 1);
        (c_mtd_scan_partitions, 0)]).
Proof. reflexivity. Qed.

(** unmount of a volume that is mounted returns its argument. *)
Example unmount_mounted :
  UnmountFn "unmount" demo_cookie [yields "/system"] (demo_state ["/system"]) =
  Returns (Some (mk_cstr 1 "/system"))
    (mk_State (P := demo) ["/system"] 2 [] [] []
       [(c_unmount_mounted_volume 1, 0);
        (c_find_mounted_volume_by_mount_point "/system", 1);
        (c_scan_mounted_volumes, 0)]).
Proof. reflexivity. Qed.

(** symlink("/target", "/a", "/b") where "/a" exists already: the
    first symlink fails, the value is the empty text all the same, and
    block 1, the target, stays allocated. *)
Example symlink_over_existing :
  SymlinkFn "symlink" demo_cookie [yields "/target"; yields "/a"; yields "/b"]
    (demo_state ["/a"]) =
  Returns (Some (mk_cstr 5 EmptyString))
    (mk_State (P := demo) ["/b"; "/a"] 6 [2; 4; 3]%nat [] []
       [(c_symlink "/target" "/b", 0); (c_symlink "/target" "/a", -1)]).
Proof. reflexivity. Qed.

(** set_perm("0", "0", "0644", "/a", "/b"): only "/b" is touched. *)
Example set_perm_two_targets :
  SetPermFn "set_perm" demo_cookie
    [yields "0"; yields "0"; yields "0644"; yields "/a"; yields "/b"]
    (demo_state ["/a"; "/b"]) =
  Returns (Some (mk_cstr 7 EmptyString))
    (mk_State (P := demo) ["/a"; "/b"] 8 [1; 6; 5; 4; 3; 2]%nat [] []
       [(c_chmod "/b" 420, 0); (c_chown "/b" 0 0, 0)]).
Proof. reflexivity. Qed.

(** set_perm_recursive("0", "0", "0755", "0644", "/a", "/b"). *)
Example set_perm_recursive_two_targets :
  SetPermFn "set_perm_recursive" demo_cookie
    [yields "0"; yields "0"; yields "0755"; yields "0644"; yields "/a";
     yields "/b"]
    (demo_state ["/a"; "/b"]) =
  Returns (Some (mk_cstr 8 EmptyString))
    (mk_State (P := demo) ["/a"; "/b"] 9 [1; 7; 6; 5; 4; 3; 2]%nat [] []
       [(c_dirSetHierarchyPermissions "/b" 0 0 493 420, 0);
        (c_dirSetHierarchyPermissions "/a" 0 0 493 420, 0)]).
Proof. reflexivity. Qed.

(** package_extract("META/x", "/out/x") from an archive that has the
    entry, and from one that has not. *)
Example package_extract_runs :
  PackageExtractFn "package_extract" demo_cookie
    [yields "META/x"; yields "/out/x"] (demo_state ["META/x"]) =
  Returns (Some (mk_cstr 3 "t"))
    (mk_State (P := demo) ["/out/x"; "META/x"] 4 [2; 1]%nat [] []
       [(c_mzExtractRecursive 7 "META/x" "/out/x" 1 1217592000 1217592000,
         1)])
  /\
  PackageExtractFn "package_extract" demo_cookie
    [yields "META/x"; yields "/out/x"] (demo_state []) =
  Returns (Some (mk_cstr 3 EmptyString))
    (mk_State (P := demo) [] 4 [2; 1]%nat [] []
       [(c_mzExtractRecursive 7 "META/x" "/out/x" 1 1217592000 1217592000,
         0)]).
Proof. split; reflexivity. Qed.

(** show_progress("0.5", "30") writes one line to the command pipe. *)
Example show_progress_line :
  ShowProgressFn "show_progress" demo_cookie [yields "0.5"; yields "30"]
    (demo_state []) =
  Returns (Some (mk_cstr 3 EmptyString))
    (mk_State (P := demo) [] 4 [2; 1]%nat [] []
       [(c_fprintf 3 ("progress 0.5 30" ++ nl), 0)]).
Proof. reflexivity. Qed.

(** ** The further properties at concrete calls *)

(** mount("MTD", "/system"): two arguments where three are wanted. *)
Lemma arity_violation_aborts_witness :
  In (MountFn, (Z.eqb 3, "3 args")) (arity_checked (P := demo)) /\
  (3 =? argc_of [yields "MTD"; yields "/system"]) = false /\
  MountFn "mount" demo_cookie [yields "MTD"; yields "/system"]
    (demo_state ["system"]) =
  Returns None
    (mk_State (P := demo) ["system"] 2 []
       [mk_cstr 1
          (truncate 4096
             ("mount" ++ "() expects " ++ "3 args" ++ ", got "
              ++ itoa (argc_of [yields "MTD"; yields "/system"])))]
       [] []).
Proof.
  split; [left; reflexivity|]. split; [reflexivity|].
  exact (arity_violation_aborts (P := demo) MountFn (Z.eqb 3) "3 args"
           (or_introl eq_refl) "mount" demo_cookie
           [yields "MTD"; yields "/system"] (demo_state ["system"]) eq_refl).
Defined.

(** unmount("/system") where the volume is mounted. *)
Lemma unmount_result_ownership_witness :
  "/system" <> EmptyString /\
  exists (vol rc : Z) (st' : State (P := demo)),
    vol = fst (exec (c_find_mounted_volume_by_mount_point "/system")
                 (snd (exec c_scan_mounted_volumes
                         (world (demo_state ["/system"]))))) /\
    errors st' = errors (demo_state ["/system"]) /\
    if vol =? 0
    then UnmountFn "unmount" demo_cookie [yields "/system"]
           (demo_state ["/system"]) =
         Returns (Some (mk_cstr (S (brk (demo_state ["/system"]))) EmptyString))
           st' /\
         freed st' = brk (demo_state ["/system"])
                     :: freed (demo_state ["/system"]) /\
         map fst (calls st') =
           (c_find_mounted_volume_by_mount_point "/system"
            :: c_scan_mounted_volumes
            :: map fst (calls (demo_state ["/system"])))
    else UnmountFn "unmount" demo_cookie [yields "/system"]
           (demo_state ["/system"]) =
         Returns (Some (mk_cstr (brk (demo_state ["/system"])) "/system")) st' /\
         freed st' = freed (demo_state ["/system"]) /\
         calls st' =
           ((c_unmount_mounted_volume vol, rc)
            :: (c_find_mounted_volume_by_mount_point "/system", vol)
            :: (c_scan_mounted_volumes,
                fst (exec c_scan_mounted_volumes
                       (world (demo_state ["/system"]))))
            :: calls (demo_state ["/system"])).
Proof.
  assert (H : "/system" <> EmptyString) by discriminate.
  split; [exact H|].
  exact (unmount_result_ownership (P := demo) "unmount" demo_cookie "/system"
           (demo_state ["/system"]) H).
Defined.

(** format("MTD", "boot") where the partition exists: the partition
    is looked up, opened, erased and closed, and the location comes
    back. *)
Lemma format_mtd_protocol_witness :
  "boot" <> EmptyString /\
  exists st' : State (P := demo),
    FormatFn "format" demo_cookie [yields "MTD"; yields "boot"]
      (demo_state ["boot"]) =
    Returns (Some (mk_cstr 2 "boot")) st' /\
    calls st' =
      [(c_mtd_write_close 1, 0); (c_mtd_erase_blocks 1 (-1), 0);
       (c_mtd_write_partition 1, 1);
       (c_mtd_find_partition_by_name "boot", 1);
       (c_mtd_scan_partitions, 0)] /\
    world st' = ["boot"] /\
    errors st' = [] /\
    brk st' = 3%nat /\
    freed st' = [1%nat] /\
    opened
      [(c_mtd_write_close 1, 0); (c_mtd_erase_blocks 1 (-1), 0);
       (c_mtd_write_partition 1, 1)] =
    closed
      [(c_mtd_write_close 1, 0); (c_mtd_erase_blocks 1 (-1), 0);
       (c_mtd_write_partition 1, 1)].
Proof.
  assert (H : "boot" <> EmptyString) by discriminate.
  split; [exact H|].
  exact (format_mtd_protocol (P := demo) "format" demo_cookie "boot"
           (demo_state ["boot"]) H).
Defined.

(** mount("vfat", "/dev/block/mmcblk0", "/sdcard"). *)
Lemma mount_driver_protocol_witness :
  "vfat" <> EmptyString /\ "/dev/block/mmcblk0" <> EmptyString /\
  "/sdcard" <> EmptyString /\
  exists (new : list (Call * Z)) (r : char_p) (st' : State (P := demo)),
    MountFn "mount" demo_cookie
      [yields "vfat"; yields "/dev/block/mmcblk0"; yields "/sdcard"]
      (demo_state ["/dev/block/mmcblk0"])
    = Returns r st' /\
    calls st' = (new ++ calls (demo_state ["/dev/block/mmcblk0"]))%list /\
    if String.eqb "vfat" "MTD"
    then exists mtd : Z,
           In (c_mtd_find_partition_by_name "/dev/block/mmcblk0", mtd) new /\
           rev (map fst new) =
             ([c_mkdir "/sdcard" 493; c_mtd_scan_partitions;
               c_mtd_find_partition_by_name "/dev/block/mmcblk0"]
              ++ (if mtd =? 0 then []
                  else [c_mtd_mount_partition mtd "/sdcard" "yaffs2" 0]))%list
    else rev (map fst new) =
           [c_mkdir "/sdcard" 493;
            c_mount "/dev/block/mmcblk0" "/sdcard" "vfat"
              (Z.lor (Z.lor MS_NOATIME MS_NODEV) MS_NODIRATIME)
              EmptyString].
Proof.
  assert (H1 : "vfat" <> EmptyString) by discriminate.
  assert (H2 : "/dev/block/mmcblk0" <> EmptyString) by discriminate.
  assert (H3 : "/sdcard" <> EmptyString) by discriminate.
  split; [exact H1|]. split; [exact H2|]. split; [exact H3|].
  exact (mount_driver_protocol (P := demo) "mount" demo_cookie "vfat"
           "/dev/block/mmcblk0" "/sdcard"
           (demo_state ["/dev/block/mmcblk0"]) H1 H2 H3).
Defined.

(** delete("/a", e, "/c") with [e] failing, the release loop given
    two turns: nothing is removed. *)
Lemma failed_argument_no_effect_witness :
  In ("delete", DeleteFn 2) (RegisterInstallFunctions (P := demo) 2) /\
  In fails [yields "/a"; fails; yields "/c"] /\
  calls (state_of (DeleteFn 2 "delete" demo_cookie
                     [yields "/a"; fails; yields "/c"]
                     (demo_state ["/a"; "/c"])))
  = calls (demo_state ["/a"; "/c"]) /\
  world (state_of (DeleteFn 2 "delete" demo_cookie
                     [yields "/a"; fails; yields "/c"]
                     (demo_state ["/a"; "/c"])))
  = world (demo_state ["/a"; "/c"]).
Proof.
  assert (H1 : In ("delete", DeleteFn 2)
                 (RegisterInstallFunctions (P := demo) 2))
    by (simpl; auto 6).
  assert (H2 : In fails [yields "/a"; fails; yields "/c"])
    by (simpl; auto).
  split; [exact H1|]. split; [exact H2|].
  exact (failed_argument_no_effect (P := demo) 2 "delete" (DeleteFn 2) H1
           demo_cookie [yields "/a"; fails; yields "/c"]
           (demo_state ["/a"; "/c"]) H2).
Defined.

(** set_perm("x", "0", "0644", "/a"): the arguments and the array are
    freed, the message is kept by SetError. *)
Lemma returning_builtins_balance_memory_witness :
  In SetPermFn (leak_free (P := demo) 0) /\
  SetPermFn "set_perm" demo_cookie
    [yields "x"; yields "0"; yields "0644"; yields "/a"] (demo_state ["/a"])
  = Returns None
      (mk_State (P := demo) ["/a"] 7 [1; 5; 4; 3; 2]%nat
         [mk_cstr 6
            (truncate 4096
               ("set_perm: " ++ dq ++ "x" ++ dq ++ " not a valid uid"))]
         [] []) /\
  balanced (demo_state ["/a"])
    (mk_State (P := demo) ["/a"] 7 [1; 5; 4; 3; 2]%nat
       [mk_cstr 6
          (truncate 4096
             ("set_perm: " ++ dq ++ "x" ++ dq ++ " not a valid uid"))]
       [] [])
    None.
Proof.
  assert (H1 : In SetPermFn (leak_free (P := demo) 0)) by (simpl; auto 8).
  assert (H2 :
    SetPermFn "set_perm" demo_cookie
      [yields "x"; yields "0"; yields "0644"; yields "/a"] (demo_state ["/a"])
    = Returns None
        (mk_State (P := demo) ["/a"] 7 [1; 5; 4; 3; 2]%nat
           [mk_cstr 6
              (truncate 4096
                 ("set_perm: " ++ dq ++ "x" ++ dq ++ " not a valid uid"))]
           [] [])) by reflexivity.
  split; [exact H1|]. split; [exact H2|].
  exact (returning_builtins_balance_memory (P := demo) 0 SetPermFn H1
           "set_perm" demo_cookie
           [yields "x"; yields "0"; yields "0644"; yields "/a"]
           (demo_state ["/a"]) None _ H2).
Defined.

(** symlink("/target", "/a", e) with [e] failing: the target (block
    1), the array (2) and the source (3) are all freed. *)
Lemma symlink_abort_balances_memory_witness :
  SymlinkFn "symlink" demo_cookie [yields "/target"; yields "/a"; fails]
    (demo_state [])
  = Returns None (mk_State (P := demo) [] 4 [1; 2; 3]%nat [] [] []) /\
  balanced (demo_state [])
    (mk_State (P := demo) [] 4 [1; 2; 3]%nat [] [] []) None.
Proof.
  assert (H :
    SymlinkFn "symlink" demo_cookie [yields "/target"; yields "/a"; fails]
      (demo_state [])
    = Returns None (mk_State (P := demo) [] 4 [1; 2; 3]%nat [] [] []))
    by reflexivity.
  split; [exact H|].
  exact (symlink_abort_balances_memory (P := demo) "symlink" demo_cookie
           [yields "/target"; yields "/a"; fails] (demo_state []) _ H).
Defined.

(** ErrorAbort of format's empty-type message. *)
Lemma ErrorAbort_message_bounded_witness :
  format "type argument to %s() can't be empty" [arg_s "format"]
  = Some "type argument to format() can't be empty" /\
  exists msg : string,
    ErrorAbort "type argument to %s() can't be empty" [arg_s "format"]
      (demo_state []) =
    Returns None
      (mk_State (P := demo) [] 2 [] [mk_cstr 1 msg] [] []) /\
    (String.length msg <= 4095)%nat /\
    prefix msg "type argument to format() can't be empty" = true /\
    ((String.length "type argument to format() can't be empty" <= 4095)%nat ->
     msg = "type argument to format() can't be empty").
Proof.
  assert (H : format "type argument to %s() can't be empty" [arg_s "format"]
              = Some "type argument to format() can't be empty")
    by reflexivity.
  split; [exact H|].
  exact (ErrorAbort_message_bounded (P := demo)
           "type argument to %s() can't be empty" [arg_s "format"]
           "type argument to format() can't be empty" (demo_state []) H).
Defined.

(** format("MTD", "boot") where the partition exists. *)
Lemma format_erases_named_partition_witness :
  "MTD" <> EmptyString /\ "boot" <> EmptyString /\
  exists (new : list (Call * Z)) (r : char_p) (st' : State (P := demo)),
    FormatFn "format" demo_cookie [yields "MTD"; yields "boot"]
      (demo_state ["boot"]) = Returns r st' /\
    calls st' = (new ++ calls (demo_state ["boot"]))%list /\
    (String.eqb "MTD" "MTD" = false -> new = []) /\
    forall ctx blocks rc : Z,
      In (c_mtd_erase_blocks ctx blocks, rc) new ->
      blocks = -1 /\ ctx <> 0 /\
      exists mtd : Z,
        mtd <> 0 /\
        In (c_mtd_find_partition_by_name "boot", mtd) new /\
        In (c_mtd_write_partition mtd, ctx) new.
Proof.
  assert (H1 : "MTD" <> EmptyString) by discriminate.
  assert (H2 : "boot" <> EmptyString) by discriminate.
  split; [exact H1|]. split; [exact H2|].
  exact (format_erases_named_partition (P := demo) "format" demo_cookie "MTD"
           "boot" (demo_state ["boot"]) H1 H2).
Defined.

(** format("ext4", "/dev/block/mmcblk0p2"): the NULL that only the
    unsupported type accounts for. *)
Lemma abort_signal_accounting_witness :
  In ("format", FormatFn) (RegisterInstallFunctions (P := demo) 0) /\
  FormatFn "format" demo_cookie [yields "ext4"; yields "/dev/block/mmcblk0p2"]
    (demo_state []) =
  Returns None
    (mk_State (P := demo) [] 3 [2; 1]%nat []
       [("format: unsupported type " ++ dq ++ "ext4" ++ dq)%string] []) /\
  accounted
    ("format" = "format" /\
     exists type location : string,
       [yields "ext4"; yields "/dev/block/mmcblk0p2"]
       = [yields type; yields location] /\
       String.eqb type "MTD" = false)
    [yields "ext4"; yields "/dev/block/mmcblk0p2"] (demo_state [])
    (mk_State (P := demo) [] 3 [2; 1]%nat []
       [("format: unsupported type " ++ dq ++ "ext4" ++ dq)%string] [])
    None.
Proof.
  assert (H1 : In ("format", FormatFn)
                 (RegisterInstallFunctions (P := demo) 0))
    by (simpl; auto).
  assert (H2 :
    FormatFn "format" demo_cookie
      [yields "ext4"; yields "/dev/block/mmcblk0p2"] (demo_state []) =
    Returns None
      (mk_State (P := demo) [] 3 [2; 1]%nat []
         [("format: unsupported type " ++ dq ++ "ext4" ++ dq)%string] []))
    by reflexivity.
  split; [exact H1|]. split; [exact H2|].
  exact (abort_signal_accounting (P := demo) 0 "format" FormatFn H1
           demo_cookie [yields "ext4"; yields "/dev/block/mmcblk0p2"]
           (demo_state []) None _ H2).
Defined.

(** set_perm_recursive("0", "0", "0755", "0644", "/a", "/b"). *)
Lemma SetPermFn_recursive_run_witness :
  not_a_number (P := demo) "0" = false /\
  not_a_number (P := demo) "0755" = false /\
  not_a_number (P := demo) "0644" = false /\
  ["/a"; "/b"] <> [] /\
  SetPermFn "set_perm_recursive" demo_cookie
    (map yields ["0"; "0"; "0755"; "0644"; "/a"; "/b"])
    (demo_state ["/a"; "/b"]) =
  Returns (Some (mk_cstr 8 EmptyString))
    (mk_State (P := demo) ["/a"; "/b"] 9 [1; 7; 6; 5; 4; 3; 2]%nat [] []
       [(c_dirSetHierarchyPermissions "/b" 0 0 493 420, 0);
        (c_dirSetHierarchyPermissions "/a" 0 0 493 420, 0)]).
Proof.
  assert (H1 : not_a_number (P := demo) "0" = false) by reflexivity.
  assert (H2 : not_a_number (P := demo) "0755" = false) by reflexivity.
  assert (H3 : not_a_number (P := demo) "0644" = false) by reflexivity.
  assert (H4 : ["/a"; "/b"] <> []) by discriminate.
  split; [exact H1|]. split; [exact H2|]. split; [exact H3|].
  split; [exact H4|].
  exact (SetPermFn_recursive_run (P := demo) demo_cookie "0" "0" "0755" "0644"
           ["/a"; "/b"] (demo_state ["/a"; "/b"]) H1 H1 H2 H3 H4).
Defined.

(** show_progress with a seconds text that is no number. *)
Example show_progress_lenient :
  ShowProgressFn "show_progress" demo_cookie [yields "0.5"; yields "soon"]
    (demo_state []) =
  Returns (Some (mk_cstr 3 EmptyString))
    (mk_State (P := demo) [] 4 [2; 1]%nat [] []
       [(c_fprintf 3 ("progress 0.5 0" ++ nl), 0)]).
Proof. reflexivity. Qed.

(** package_extract("META/x", "/out/x") at time 0 and at time 1000,
    from the same archive: the same call with the fixed timestamp, the
    same value and the same names on disk, at different times. *)
Lemma package_extract_reproducible_witness :
  PackageExtractFn (P := timed) "package_extract" demo_cookie
    [yields "META/x"; yields "/out/x"] (timed_state 0 ["META/x"]) =
  Returns (Some (mk_cstr 3 "t"))
    (mk_State (P := timed) (1, ["/out/x"; "META/x"]) 4 [2; 1]%nat [] []
       [(c_mzExtractRecursive 7 "META/x" "/out/x" 1 1217592000 1217592000,
         1)]) /\
  PackageExtractFn (P := timed) "package_extract" demo_cookie
    [yields "META/x"; yields "/out/x"] (timed_state 1000 ["META/x"]) =
  Returns (Some (mk_cstr 3 "t"))
    (mk_State (P := timed) (1001, ["/out/x"; "META/x"]) 4 [2; 1]%nat [] []
       [(c_mzExtractRecursive 7 "META/x" "/out/x" 1 1217592000 1217592000,
         1)]) /\
  forall (v1 v2 : char_p) (st1' st2' : State (P := timed)),
    PackageExtractFn (P := timed) "package_extract" demo_cookie
      [yields "META/x"; yields "/out/x"] (timed_state 0 ["META/x"])
    = Returns v1 st1' ->
    PackageExtractFn (P := timed) "package_extract" demo_cookie
      [yields "META/x"; yields "/out/x"] (timed_state 1000 ["META/x"])
    = Returns v2 st2' ->
    option_map text v1 = option_map text v2 /\
    v1 <> None /\
    snd (world st1') = snd (world st2').
Proof.
  destruct (package_extract_reproducible (P := timed) "package_extract"
              demo_cookie "META/x" "/out/x" (timed_state 0 ["META/x"])
              (timed_state 1000 ["META/x"])) as (H1 & H2 & H3).
  split; [exact H1|]. split; [exact H2|].
  apply (H3 (list string) snd); [|reflexivity].
  intros [t1 n1] [t2 n2] Hn. simpl in Hn. subst n2.
  split; reflexivity.
Defined.
